(** * The sales dashboard (streamlit_dann_app.py): data pipeline

    A shallow embedding of the script's data path: the data source
    (uploaded CSV or built-in sample table), the two sidebar filters, the
    CSV export, the four KPI figures, the per-category totals of the pie
    chart and the drawing of that pie.  The other widgets and charts are
    not modelled beyond the values they hand to, or take from, that path.

    The pandas operations the script calls are modelled on three kinds of
    cell: integers, strings and missing values.  A column of integers is an
    int64 column, and its sum wraps around at 64 bits as numpy's does.  A
    column of integers with missing values is a float64 column; the model
    holds its numbers as the integers they were read from, which is what
    pandas holds as long as they stay within 2^53 in magnitude.  A mean is
    given by the exact rational that pandas rounds to float64, marked when
    rounding has set in before the final division.  Cells with a fractional
    part are outside the model. *)

From Stdlib Require Import QArith.
From stdpp Require Import base tactics option list strings sorting.
From Stdlib Require Import Ascii DecimalString.

Local Open Scope Z_scope.
Local Open Scope string_scope.
Local Open Scope list_scope.

(** ** Values, series and frames *)

(** A cell of a table: an integer, a string, or a missing value (pandas'
    NaN). *)
Inductive value :=
| VInt (z : Z)
| VStr (s : string)
| VNaN.

#[global] Instance value_eq_dec : EqDecision value.
Proof. solve_decision. Defined.

(** A pandas Series without its index: the values in row order. *)
Abbreviation Series := (list value) (only parsing).

(** A row of a table: its cells, in column order. *)
Abbreviation Row := (list value) (only parsing).

(** A pandas DataFrame: the column labels and the rows, each row holding one
    cell per column, in column order. *)
Record DataFrame := mkDF {
  columns : list string;
  rows : list Row
}.

#[global] Instance DataFrame_eq_dec : EqDecision DataFrame.
Proof. solve_decision. Defined.

(** Every row has one cell for each column. *)
Definition wf (d : DataFrame) : Prop :=
  Forall (λ r : Row, length r = length (columns d)) (rows d).

(** ** Exceptions *)

Inductive exn :=
| KeyError (c : string)      (* a column label that the frame lacks *)
| TypeError                  (* arithmetic on values of the wrong type *)
| ValueError                 (* DataFrame(...) on columns of unequal length;
                                a pie that cannot be drawn *)
| EmptyDataError             (* read_csv: no columns to parse *)
| ParserError                (* read_csv: malformed text *)
| UnicodeDecodeError         (* read_csv: bytes that are not UTF-8 *)
| NotModelled.               (* no exception of Python: an input on which
                                the model of read_csv stops *)

#[global] Instance exn_eq_dec : EqDecision exn.
Proof. solve_decision. Defined.


Inductive result (A : Type) :=
| Ok (a : A)
| Raise (e : exn).
Arguments Ok {A} a.
Arguments Raise {A} e.

#[global] Instance result_ret : MRet result := λ A a, Ok a.
#[global] Instance result_bind : MBind result := λ A B f m,
  match m with
  | Ok a => f a
  | Raise e => Raise e
  end.
#[global] Instance result_fmap : FMap result := λ A B f m,
  match m with
  | Ok a => Ok (f a)
  | Raise e => Raise e
  end.

(** ** pandas operations used by the script *)

(** The cell at position [j] of a row.  The rows of a frame have a cell for
    every column ([wf]), so the default is never taken on the frames that
    the script builds. *)
Definition cell (j : nat) (r : Row) : value := default (VStr "") (r !! j).

Fixpoint index_of (c : string) (cs : list string) : option nat :=
  match cs with
  | [] => None
  | c' :: cs' => if decide (c' = c) then Some O else S <$> index_of c cs'
  end.

(** [c in df.columns] *)
Definition has_column (d : DataFrame) (c : string) : bool :=
  bool_decide (c ∈ columns d).

(** [df[c]] for a column label [c]. *)
Definition getitem (d : DataFrame) (c : string) : result Series :=
  match index_of c (columns d) with
  | Some j => Ok (cell j <$> rows d)
  | None => Raise (KeyError c)
  end.

(** [Series.unique().tolist()]: the distinct values, in order of first
    appearance. *)
Fixpoint unique_from (seen : list value) (s : Series) : list value :=
  match s with
  | [] => []
  | v :: s' =>
      if decide (v ∈ seen) then unique_from seen s'
      else v :: unique_from (v :: seen) s'
  end.

Definition unique (s : Series) : list value := unique_from [] s.

(** [Series.isin(values)]: the boolean mask. *)
Definition isin (s : Series) (values : list value) : list bool :=
  (λ v, bool_decide (v ∈ values)) <$> s.

Fixpoint select {A} (mask : list bool) (l : list A) : list A :=
  match mask, l with
  | b :: mask', x :: l' =>
      if b then x :: select mask' l' else select mask' l'
  | _, _ => []
  end.

(** [df[mask]] for a boolean mask: a new frame with the rows at which the
    mask holds. *)
Definition getitem_mask (d : DataFrame) (mask : list bool) : DataFrame :=
  {| columns := columns d; rows := select mask (rows d) |}.

(** An int64: the integers from -2^63 to 2^63 - 1, with wrap-around. *)
Definition wrap64 (z : Z) : Z := (z + 2 ^ 63) mod 2 ^ 64 - 2 ^ 63.

Definition in_int64 (z : Z) : Prop := - 2 ^ 63 <= z < 2 ^ 63.

#[global] Instance in_int64_dec z : Decision (in_int64 z).
Proof. unfold in_int64. apply _. Defined.

(** The dtype of a column: int64, float64 (numbers with missing values),
    text, or the object dtype of a column without rows. *)
Inductive dtype :=
| Int64
| Float64
| Text
| Object.

#[global] Instance dtype_eq_dec : EqDecision dtype.
Proof. solve_decision. Defined.

Definition is_strb (v : value) : bool :=
  match v with VStr _ => true | _ => false end.

Definition is_nanb (v : value) : bool :=
  match v with VNaN => true | _ => false end.

(** The dtype that a column of these cells is given when it is built.  The
    integers of a column are taken to be int64s; pandas gives a column with
    a larger integer another dtype, which is not modelled. *)
Definition dtype_of (s : Series) : dtype :=
  match s with
  | [] => Object
  | _ =>
      if existsb is_strb s then Text
      else if existsb is_nanb s then Float64
      else Int64
  end.

(** [Series.dropna()], which the reductions apply first ([skipna=True]). *)
Definition dropna (s : Series) : Series := filter (λ v, v ≠ VNaN) s.

(** [+] on two cells: 64-bit addition on integers, concatenation on
    strings. *)
Definition py_add (x y : value) : result value :=
  match x, y with
  | VInt a, VInt b => Ok (VInt (wrap64 (a + b)))
  | VStr a, VStr b => Ok (VStr (a +:+ b))
  | _, _ => Raise TypeError
  end.

Fixpoint add_reduce (acc : value) (s : Series) : result value :=
  match s with
  | [] => Ok acc
  | v :: s' => acc' ← py_add acc v; add_reduce acc' s'
  end.

Fixpoint as_ints (s : Series) : option (list Z) :=
  match s with
  | [] => Some []
  | VInt z :: s' => (z ::.) <$> as_ints s'
  | _ :: _ => None
  end.

Definition sum_Z (l : list Z) : Z := foldr Z.add 0 l.

(** [Series.sum()] on a column of dtype [dt], of which [s] holds all or
    some of the rows.  Missing values are skipped.  An int64 column is
    added up in 64 bits; a float64 column in floating point, which is
    exact while the magnitudes of its numbers add up to 2^53 at most; a
    text column is concatenated; a column without rows gives 0. *)
Definition Series_sum (dt : dtype) (s : Series) : result value :=
  match dt with
  | Int64 => add_reduce (VInt 0) s
  | Float64 =>
      match as_ints (dropna s) with
      | Some zs => Ok (VInt (sum_Z zs))
      | None => Raise TypeError
      end
  | Text =>
      match dropna s with
      | [] => Ok (VStr "")
      | v :: s' => add_reduce v s'
      end
  | Object =>
      match s with
      | [] => Ok (VInt 0)
      | v :: s' => add_reduce v s'
      end
  end.

(** The result of [Series.mean()], a float64: not-a-number, the float64
    nearest to a rational, or a float64 that rounding on the way has moved
    away from it. *)
Inductive mean :=
| NaN
| Mean (q : Q)
| Rounded (q : Q).

(** The mean of a series of integers, as computed in float64: the numbers
    are converted and added up, and the sum is divided by the count.  While
    the magnitudes add up to 2^53 at most, every step before the division
    is exact. *)
Definition mean_of (zs : list Z) : mean :=
  match zs with
  | [] => NaN
  | _ =>
      let q := (inject_Z (sum_Z zs) / inject_Z (Z.of_nat (length zs)))%Q in
      if decide (sum_Z (Z.abs <$> zs) <= 2 ^ 53)%Z then Mean q else Rounded q
  end.

(** [Series.mean()] on a column of dtype [dt], of which [s] holds all or
    some of the rows.  A text column raises, whatever rows are left of it;
    on numbers the mean is taken in floating point over the values that
    are not missing (so an int64 total that wraps does not show in it), and
    is NaN when there is none. *)
Definition Series_mean (dt : dtype) (s : Series) : result mean :=
  match dt with
  | Text => Raise TypeError
  | _ =>
      match as_ints (dropna s) with
      | Some zs => Ok (mean_of zs)
      | None => Raise TypeError
      end
  end.

(** The order in which pandas sorts group keys: integers by value, strings
    lexicographically by code point, integers before strings.  Missing
    values are no group keys; the order puts them last. *)
Definition value_leb (x y : value) : bool :=
  match x, y with
  | VInt a, VInt b => (a <=? b)%Z
  | VInt _, _ => true
  | VStr _, VInt _ => false
  | VStr a, VStr b => String.leb a b
  | VStr _, VNaN => true
  | VNaN, VNaN => true
  | VNaN, _ => false
  end.

Definition value_le (x y : value) : Prop := Is_true (value_leb x y).

#[global] Instance value_le_dec : RelDecision value_le.
Proof. intros x y. unfold value_le. apply _. Defined.

(** [df.groupby(key)[col].sum()] with the defaults of [groupby]
    ([sort=True], [dropna=True]), [col] being of dtype [dt]: one entry per
    distinct key that is not missing, in ascending key order, holding the
    sum of [col] over the rows with that key. *)
Definition groupby_sum (dt : dtype) (d : DataFrame) (key col : string)
  : result (list (value * value)) :=
  keys ← getitem d key;
  vals ← getitem d col;
  mapM (M := result)
       (λ k, t ← Series_sum dt (select ((λ k', bool_decide (k' = k)) <$> keys) vals);
             mret (k, t))
       (merge_sort value_le (unique (dropna keys))).

(** The dtype of column [c] of a frame; a frame made of some of the rows
    of [d] keeps the dtypes of [d]. *)
Definition column_dtype (d : DataFrame) (c : string) : dtype :=
  match getitem d c with
  | Ok s => dtype_of s
  | Raise _ => Object
  end.

Definition dtypes (d : DataFrame) : list dtype :=
  (λ j, dtype_of (cell j <$> rows d)) <$> seq 0 (length (columns d)).

(** [pd.DataFrame(dict)]: the keys become the columns, in the order of the
    dictionary; the lists must have one length. *)
Definition DataFrame_from_dict (data : list (string * list value))
  : result DataFrame :=
  let n := match data with [] => O | (_, c) :: _ => length c end in
  if forallb (λ kc, Nat.eqb (length kc.2) n) data then
    Ok {| columns := data.*1;
          rows := (λ i, cell i <$> data.*2) <$> seq 0 n |}
  else Raise ValueError.

(** ** The built-in sample table *)

Definition load_sample_data : result DataFrame :=
  DataFrame_from_dict
    [ ("Hari", VStr <$> ["Senin"; "Selasa"; "Rabu"; "Kamis"; "Jumat"; "Sabtu"; "Minggu"]);
      ("Kategori", VStr <$> ["Makanan"; "Minuman"; "Makanan"; "Minuman"; "Makanan"; "Minuman"; "Makanan"]);
      ("Penjualan", VInt <$> [120; 150; 90; 170; 200; 220; 180]);
      ("Pengunjung", VInt <$> [50; 60; 30; 80; 90; 120; 100]) ].

(** ** CSV export and import

    [DataFrame.to_csv(index=False)] and [pd.read_csv] with their default
    dialect: comma separated, lines ended by a line feed, fields quoted with
    the double quote only where needed.  Strings stand for their UTF-8 bytes, so [.encode("utf-8")] and
    the decoding done by the reader leave them as they are.

    The reader decodes the upload as UTF-8, skips a byte order mark, and
    reads the first record as the header.  A short record is padded with
    missing values; the markers of a missing value (the empty field, [NA],
    [NaN], [null] and the like) are read as missing.  A column is read as
    int64 when all its fields are integers within 64 bits, as float64 when
    they are integers or missing, and as text when a field is plainly a
    word.  What pandas does on other inputs (fractions, booleans, repeated
    or empty header labels, records longer than the header) is not
    modelled: the reader then stops with [NotModelled], which stands for no
    behaviour of pandas. *)

Definition comma : ascii := ","%char.
Definition dquote : ascii := "034"%char.
Definition LF : ascii := "010"%char.
Definition CR : ascii := "013"%char.
Definition space : ascii := " "%char.
Definition tab : ascii := "009"%char.

Definition show_Z (z : Z) : string := NilZero.string_of_int (Z.to_int z).

(** A cell as [to_csv] writes it: a number of a float64 column with its
    fraction, a missing value as the empty field. *)
Definition show_cell (dt : dtype) (v : value) : string :=
  match v with
  | VInt z =>
      match dt with
      | Float64 => show_Z z +:+ ".0"
      | _ => show_Z z
      end
  | VStr s => s
  | VNaN => ""
  end.

Definition needs_quote (s : string) : bool :=
  existsb (λ a, bool_decide (a ∈ [comma; dquote; LF; CR]))
          (String.list_ascii_of_string s).

Fixpoint double_quotes (s : string) : string :=
  match s with
  | EmptyString => EmptyString
  | String a s' =>
      if decide (a = dquote) then String dquote (String dquote (double_quotes s'))
      else String a (double_quotes s')
  end.

Definition quote_field (s : string) : string :=
  if needs_quote s then String dquote (double_quotes s +:+ String dquote "")
  else s.

Definition csv_line (fields : list string) : string :=
  match fields with
  | [ EmptyString ] => String dquote (String dquote (String LF ""))
  | _ => String.concat (String comma "") (quote_field <$> fields) +:+ String LF ""
  end.

(** [to_csv(index=False)] of a frame whose columns have the dtypes
    [dts]. *)
Definition to_csv_as (dts : list dtype) (d : DataFrame) : string :=
  csv_line (columns d)
  +:+ String.concat "" ((λ r, csv_line (zip_with show_cell dts r)) <$> rows d).

Definition to_csv (d : DataFrame) : string := to_csv_as (dtypes d) d.

(** The reader's tokenizer: a state machine over the characters. *)
Inductive tstate :=
| StartRecord       (* at the start of a line *)
| WhitespaceLine    (* only blanks seen on this line so far *)
| StartField        (* just after a comma *)
| InField           (* inside an unquoted field *)
| InQuoted          (* inside a quoted field *)
| QuoteInQuoted.    (* just after a double quote inside a quoted field *)

Record tokenizer := mkTok {
  st : tstate;
  fld : list ascii;            (* current field, last character first *)
  rcd : list string;           (* current record, last field first *)
  rcds : list (list string)    (* finished records, last record first *)
}.

Definition push (c : ascii) (s : tstate) (t : tokenizer) : tokenizer :=
  {| st := s; fld := c :: fld t; rcd := rcd t; rcds := rcds t |}.

Definition end_field (t : tokenizer) : tokenizer :=
  {| st := StartField; fld := [];
     rcd := String.string_of_list_ascii (rev (fld t)) :: rcd t; rcds := rcds t |}.

Definition end_record (t : tokenizer) : tokenizer :=
  let t' := end_field t in
  {| st := StartRecord; fld := []; rcd := []; rcds := rev (rcd t') :: rcds t' |}.

Definition skip_line (t : tokenizer) : tokenizer :=
  {| st := StartRecord; fld := []; rcd := rcd t; rcds := rcds t |}.

Definition is_newline (c : ascii) : bool := bool_decide (c = LF ∨ c = CR).
Definition is_blank (c : ascii) : bool := bool_decide (c = space ∨ c = tab).

Definition tstep (t : tokenizer) (c : ascii) : tokenizer :=
  match st t with
  | StartRecord =>
      if is_newline c then t
      else if is_blank c then push c WhitespaceLine t
      else if decide (c = comma) then end_field t
      else if decide (c = dquote) then
        {| st := InQuoted; fld := fld t; rcd := rcd t; rcds := rcds t |}
      else push c InField t
  | WhitespaceLine =>
      if is_newline c then skip_line t
      else if is_blank c then push c WhitespaceLine t
      else if decide (c = comma) then end_field t
      else push c InField t
  | StartField =>
      if is_newline c then end_record t
      else if decide (c = comma) then end_field t
      else if decide (c = dquote) then
        {| st := InQuoted; fld := fld t; rcd := rcd t; rcds := rcds t |}
      else push c InField t
  | InField =>
      if is_newline c then end_record t
      else if decide (c = comma) then end_field t
      else push c InField t
  | InQuoted =>
      if decide (c = dquote) then
        {| st := QuoteInQuoted; fld := fld t; rcd := rcd t; rcds := rcds t |}
      else push c InQuoted t
  | QuoteInQuoted =>
      if decide (c = dquote) then push c InQuoted t
      else if is_newline c then end_record t
      else if decide (c = comma) then end_field t
      else push c InField t
  end.

Fixpoint tokenize_from (t : tokenizer) (s : string) : tokenizer :=
  match s with
  | EmptyString => t
  | String c s' => tokenize_from (tstep t c) s'
  end.

(** End of input: the last line, if any, is closed; an open quote is an
    error. *)
Definition tokenize (s : string) : result (list (list string)) :=
  let t := tokenize_from {| st := StartRecord; fld := []; rcd := []; rcds := [] |} s in
  match st t with
  | StartRecord | WhitespaceLine => Ok (rev (rcds t))
  | StartField | InField | QuoteInQuoted => Ok (rev (rcds (end_record t)))
  | InQuoted => Raise ParserError
  end.

Definition digit_of (c : ascii) : option Z :=
  let n := Z.of_N (N_of_ascii c) in
  if (48 <=? n)%Z && (n <=? 57)%Z then Some (n - 48)%Z else None.

Fixpoint parse_digits (acc : Z) (s : string) : option Z :=
  match s with
  | EmptyString => Some acc
  | String c s' =>
      match digit_of c with
      | Some k => parse_digits (10 * acc + k) s'
      | None => None
      end
  end.

(** An integer literal: an optional sign and at least one digit. *)
Definition parse_int (s : string) : option Z :=
  match s with
  | EmptyString => None
  | String c s' =>
      if decide (c = "-"%char) then
        match s' with EmptyString => None | _ => Z.opp <$> parse_digits 0 s' end
      else if decide (c = "+"%char) then
        match s' with EmptyString => None | _ => parse_digits 0 s' end
      else parse_digits 0 s
  end.

(** The decimal numeral of an integer, as [to_csv] writes it and as the
    reader takes it for an integer. *)
Definition int_literal (f : string) : option Z :=
  match parse_int f with
  | Some z => if decide (show_Z z = f) then Some z else None
  | None => None
  end.

(** Strict UTF-8, byte by byte. *)
Inductive ustate :=
| UStart             (* between two characters *)
| UCont (n : nat)    (* [n] continuation bytes to come *)
| UE0 | UED | UF0 | UF4.   (* after a lead byte that restricts the next *)

Definition ustep (u : ustate) (c : ascii) : option ustate :=
  let b := N_of_ascii c in
  match u with
  | UStart =>
      if (b <=? 127)%N then Some UStart
      else if (194 <=? b)%N && (b <=? 223)%N then Some (UCont 1)
      else if (b =? 224)%N then Some UE0
      else if (b =? 237)%N then Some UED
      else if (225 <=? b)%N && (b <=? 239)%N then Some (UCont 2)
      else if (b =? 240)%N then Some UF0
      else if (241 <=? b)%N && (b <=? 243)%N then Some (UCont 3)
      else if (b =? 244)%N then Some UF4
      else None
  | UCont n =>
      if (128 <=? b)%N && (b <=? 191)%N then
        Some (match n with S (S m) => UCont (S m) | _ => UStart end)
      else None
  | UE0 => if (160 <=? b)%N && (b <=? 191)%N then Some (UCont 1) else None
  | UED => if (128 <=? b)%N && (b <=? 159)%N then Some (UCont 1) else None
  | UF0 => if (144 <=? b)%N && (b <=? 191)%N then Some (UCont 2) else None
  | UF4 => if (128 <=? b)%N && (b <=? 143)%N then Some (UCont 2) else None
  end.

Fixpoint utf8_from (u : ustate) (s : string) : bool :=
  match s with
  | EmptyString => match u with UStart => true | _ => false end
  | String c s' =>
      match ustep u c with
      | Some u' => utf8_from u' s'
      | None => false
      end
  end.

Definition utf8_valid (s : string) : bool := utf8_from UStart s.

(** The byte order mark, which the reader skips. *)
Definition strip_bom (s : string) : string :=
  match s with
  | String a (String b (String c s')) =>
      if decide (a = "239"%char ∧ b = "187"%char ∧ c = "191"%char) then s'
      else s
  | _ => s
  end.

(** The fields read as a missing value. *)
Definition na_values : list string :=
  [ ""; "#N/A"; "#N/A N/A"; "#NA"; "-1.#IND"; "-1.#QNAN"; "-NaN"; "-nan";
    "1.#IND"; "1.#QNAN"; "<NA>"; "N/A"; "NA"; "NULL"; "NaN"; "None"; "n/a";
    "nan"; "null" ].

Definition is_na (f : string) : bool := bool_decide (f ∈ na_values).

Definition lower (c : ascii) : ascii :=
  let b := N_of_ascii c in
  if (65 <=? b)%N && (b <=? 90)%N then ascii_of_N (b + 32) else c.

Fixpoint lowercase (s : string) : string :=
  match s with
  | EmptyString => EmptyString
  | String c s' => String (lower c) (lowercase s')
  end.

(** A field that makes its column a text column: it starts with a letter
    and is none of the words that the reader takes for a missing value, a
    boolean or a number. *)
Definition is_word (f : string) : bool :=
  match f with
  | EmptyString => false
  | String c _ =>
      let b := N_of_ascii (lower c) in
      ((97 <=? b)%N && (b <=? 122)%N || (128 <=? b)%N)
      && negb (is_na f)
      && negb (bool_decide (lowercase f ∈ ["true"; "false"; "inf"; "infinity"; "nan"]))
  end.

Inductive kind :=
| KInt       (* int64 *)
| KFloat     (* float64: integers and missing values *)
| KText
| KOther.    (* not modelled *)

#[global] Instance kind_eq_dec : EqDecision kind.
Proof. solve_decision. Defined.

Definition column_kind (fields : list string) : kind :=
  if existsb is_word fields then KText
  else if forallb (λ f, is_na f || bool_decide (is_Some (int_literal f))) fields then
    let zs := omap int_literal fields in
    if existsb is_na fields then
      if forallb (λ z : Z, (Z.abs z <=? 2 ^ 53)%Z) zs then KFloat else KOther
    else
      if forallb (λ z : Z, (- 2 ^ 63 <=? z)%Z && (z <? 2 ^ 63)%Z) zs then KInt else KOther
  else KOther.

Definition convert (k : kind) (f : string) : value :=
  if is_na f then VNaN
  else
    match k with
    | KText => VStr f
    | _ =>
        match int_literal f with
        | Some z => VInt z
        | None => VNaN
        end
    end.

(** A record with fewer fields than the header is filled up. *)
Definition pad (n : nat) (r : list string) : list string :=
  r ++ replicate (n - length r) "".

Definition labels_ok (header : list string) : bool :=
  bool_decide (NoDup header) && negb (bool_decide ("" ∈ header)).

(** [pd.read_csv(uploaded_file)] on the bytes of the upload. *)
Definition read_csv (text : string) : result DataFrame :=
  if utf8_valid text then
    recs ← tokenize (strip_bom text);
    match recs with
    | [] => Raise EmptyDataError
    | header :: data =>
        if labels_ok header
           && forallb (λ r, Nat.leb (length r) (length header)) data then
          let padded := pad (length header) <$> data in
          let kinds :=
            (λ j, column_kind ((λ r, default "" (r !! j)) <$> padded))
              <$> seq 0 (length header) in
          if bool_decide (KOther ∈ kinds) then Raise NotModelled
          else Ok {| columns := header; rows := zip_with convert kinds <$> padded |}
        else Raise NotModelled
    end
  else Raise UnicodeDecodeError.

(** ** The script

    Streamlit runs the script from top to bottom on every interaction.  What
    an interaction gives the run is the state of the three sidebar widgets;
    what lasts from one run to the next is the cache of [st.cache_data]. *)

Record Interaction := mkInteraction {
  uploaded_file : option string;          (* the uploaded file's bytes, if any *)
  pick_hari : option (list value);        (* the day multiselect, if touched *)
  pick_kategori : option (list value)     (* the category multiselect, if touched *)
}.

Record Session := mkSession {
  sample_cache : option DataFrame          (* memo of [load_sample_data] *)
}.

Definition new_session : Session := {| sample_cache := None |}.

(** A run threads the session and may stop at an exception. *)
Definition M (A : Type) : Type := Session → Session * result A.

#[global] Instance M_ret : MRet M := λ A a s, (s, Ok a).
#[global] Instance M_bind : MBind M := λ A B f m s,
  match m s with
  | (s', Ok a) => f a s'
  | (s', Raise e) => (s', Raise e)
  end.

Definition lift {A} (r : result A) : M A := λ s, (s, r).

(** [load_sample_data()] under [@st.cache_data]: the body runs on the first
    call of the session; later calls get the cached table. *)
Definition cached_load_sample_data : M DataFrame := λ s,
  match sample_cache s with
  | Some d => (s, Ok d)
  | None =>
      match load_sample_data with
      | Ok d => ({| sample_cache := Some d |}, Ok d)
      | Raise e => (s, Raise e)
      end
  end.

(** [st.sidebar.multiselect(label, options, default=default)]: the default
    until the user changes the selection, then the user's picks (which the
    widget draws from [options]). *)
Definition multiselect (options default : list value)
    (picked : option (list value)) : list value :=
  match picked with
  | Some sel => sel
  | None => default
  end.

(** The script's variables that carry data, as they stand when a run ends. *)
Record Globals := mkGlobals {
  df : DataFrame;
  hari_list : list value;
  selected_hari : list value;
  selected_kategori : list value;
  filtered_df : DataFrame;
  csv : string;
  total_sales : value;
  total_visitors : value;
  avg_sales : mean;
  avg_visitors : mean;
  pie_df : option (list (value * value))
}.

(** Lines 49-54. *)
Definition load_data (i : Interaction) : M DataFrame :=
  match uploaded_file i with
  | Some f => lift (read_csv f)
  | None => cached_load_sample_data
  end.

(** Lines 62-66. *)
Definition select_kategori (d : DataFrame) (i : Interaction)
  : result (list value) :=
  if has_column d "Kategori" then
    kategori ← getitem d "Kategori";
    let kategori_list := unique kategori in
    mret (multiselect kategori_list kategori_list (pick_kategori i))
  else mret [].

(** Lines 69-71. *)
Definition apply_filter (d : DataFrame) (sel_hari sel_kategori : list value)
  : result DataFrame :=
  hari ← getitem d "Hari";
  let filtered := getitem_mask d (isin hari sel_hari) in
  if has_column d "Kategori" then
    kategori ← getitem filtered "Kategori";
    mret (getitem_mask filtered (isin kategori sel_kategori))
  else mret filtered.

(** Lines 136-138. *)
Definition pie (d filtered : DataFrame)
  : result (option (list (value * value))) :=
  if has_column d "Kategori" then
    Some <$> groupby_sum (column_dtype d "Penjualan") filtered "Kategori" "Penjualan"
  else mret None.

(** The data that lines 59-138 compute from the loaded table: the
    selections, the filtered table, the export, the four figures and the
    totals per category.  The calls that lay out the page and draw the
    charts are not part of it; [page], below, adds the one call among them
    that this development looks at, the drawing of the pie at line 141. *)
Definition dashboard (d : DataFrame) (i : Interaction) : result Globals :=
  hari ← getitem d "Hari";
  let hari_list := unique hari in
  let selected_hari := multiselect hari_list hari_list (pick_hari i) in
  selected_kategori ← select_kategori d i;
  filtered ← apply_filter d selected_hari selected_kategori;
  let csv := to_csv_as (dtypes d) filtered in
  penjualan ← getitem filtered "Penjualan";
  total_sales ← Series_sum (column_dtype d "Penjualan") penjualan;
  pengunjung ← getitem filtered "Pengunjung";
  total_visitors ← Series_sum (column_dtype d "Pengunjung") pengunjung;
  penjualan ← getitem filtered "Penjualan";
  avg_sales ← Series_mean (column_dtype d "Penjualan") penjualan;
  pengunjung ← getitem filtered "Pengunjung";
  avg_visitors ← Series_mean (column_dtype d "Pengunjung") pengunjung;
  pie_df ← pie d filtered;
  mret {| df := d; hari_list := hari_list;
          selected_hari := selected_hari;
          selected_kategori := selected_kategori;
          filtered_df := filtered; csv := csv;
          total_sales := total_sales; total_visitors := total_visitors;
          avg_sales := avg_sales; avg_visitors := avg_visitors;
          pie_df := pie_df |}.

(** [ax3.pie(pie_df, labels=pie_df.index, ...)] (line 141): matplotlib
    refuses a negative wedge, and wedges that add up to nothing, which
    is the case of a pie without wedges. *)
Definition ax_pie (wedges : list (value * value)) : result () :=
  if existsb (λ kv, match kv.2 with VInt z => (z <? 0)%Z | _ => false end) wedges
  then Raise ValueError
  else if forallb (λ kv, bool_decide (kv.2 = VInt 0)) wedges
  then Raise ValueError
  else Ok ().

(** The data of a run and the drawing of its pie (lines 59-141). *)
Definition page (d : DataFrame) (i : Interaction) : result Globals :=
  g ← dashboard d i;
  _ ← match pie_df g with
      | Some wedges => ax_pie wedges
      | None => Ok ()
      end;
  mret g.

Definition script (i : Interaction) : M Globals :=
  d ← load_data i;
  lift (dashboard d i).

(** A session: the script run once per interaction, the cache carried
    along. *)
Fixpoint session_runs (s : Session) (its : list Interaction)
  : Session * list (result Globals) :=
  match its with
  | [] => (s, [])
  | i :: its' =>
      let '(s', r) := script i s in
      let '(s'', rs) := session_runs s' its' in
      (s'', r :: rs)
  end.

(** ** Reading the frames row by row *)

(** The cell of row [r] under column [c] of frame [d], if [d] has [c]. *)
Definition field (d : DataFrame) (c : string) (r : Row) : option value :=
  j ← index_of c (columns d); Some (cell j r).

(** The selection predicate of the two filters: the row's day is selected,
    and so is its category when the table has categories. *)
Definition keeps (d : DataFrame) (sel_hari sel_kategori : list value)
    (r : Row) : Prop :=
  match field d "Hari" r with
  | Some v => v ∈ sel_hari
  | None => False
  end ∧
  match field d "Kategori" r with
  | Some v => v ∈ sel_kategori
  | None => True
  end.

#[global] Instance keeps_dec d sh sk r : Decision (keeps d sh sk r).
Proof. unfold keeps. destruct (field d "Hari" r), (field d "Kategori" r); apply _. Defined.


Definition is_int (v : value) : Prop := ∃ z, v = VInt z.
Definition is_str (v : value) : Prop := ∃ s, v = VStr s.

(** Column [c] of [d] is an int64 column, holding the integers [a]. *)
Definition int64_column (d : DataFrame) (c : string) (a : list Z) : Prop :=
  getitem d c = Ok (VInt <$> a) ∧ Forall in_int64 a.

Definition int_or_missing (v : value) : Prop := v = VNaN ∨ is_int v.
Definition str_or_missing (v : value) : Prop := v = VNaN ∨ is_str v.

(** A series of one type: its cells, where not missing, are all integers
    or all strings. *)
Definition homogeneous (s : Series) : Prop :=
  Forall int_or_missing s ∨ Forall str_or_missing s.

(** ** Notions used in the statements *)

(** The sample table, row by row. *)
Definition sample_table : DataFrame :=
  {| columns := ["Hari"; "Kategori"; "Penjualan"; "Pengunjung"];
     rows := [ [VStr "Senin"; VStr "Makanan"; VInt 120; VInt 50];
               [VStr "Selasa"; VStr "Minuman"; VInt 150; VInt 60];
               [VStr "Rabu"; VStr "Makanan"; VInt 90; VInt 30];
               [VStr "Kamis"; VStr "Minuman"; VInt 170; VInt 80];
               [VStr "Jumat"; VStr "Makanan"; VInt 200; VInt 90];
               [VStr "Sabtu"; VStr "Minuman"; VInt 220; VInt 120];
               [VStr "Minggu"; VStr "Makanan"; VInt 180; VInt 100] ] |}.

(** A selection of three days and one category. *)
Definition pick_weekend : Interaction :=
  {| uploaded_file := None;
     pick_hari := Some [VStr "Sabtu"; VStr "Minggu"; VStr "Senin"];
     pick_kategori := Some [VStr "Makanan"] |}.

(** The dashboard as first opened: no upload, both filters untouched. *)
Definition first_view : Interaction :=
  {| uploaded_file := None; pick_hari := None; pick_kategori := None |}.

(** Every day and every category picked by hand. *)
Definition pick_everything : Interaction :=
  {| uploaded_file := None;
     pick_hari := Some (VStr <$> ["Minggu"; "Sabtu"; "Jumat"; "Kamis"; "Rabu"; "Selasa"; "Senin"]);
     pick_kategori := Some (VStr <$> ["Minuman"; "Makanan"]) |}.

(** The keys of the pie chart's totals come in the order in which the
    categories first occur in the filtered rows. *)
Definition pie_keys_by_first_occurrence (g : Globals) : Prop :=
  ∀ p kategori,
    pie_df g = Some p →
    getitem (filtered_df g) "Kategori" = Ok kategori →
    p.*1 = unique kategori.

(** Tuesday and Wednesday only. *)
Definition pick_two_days : Interaction :=
  {| uploaded_file := None;
     pick_hari := Some [VStr "Selasa"; VStr "Rabu"];
     pick_kategori := None |}.





(** The total of [zs] over the positions at which [keys] holds [k]. *)
Definition group_total (keys : list value) (zs : list Z) (k : value) : Z :=
  sum_Z (select ((λ k', bool_decide (k' = k)) <$> keys) zs).

(** What the cache holds, if anything, is the sample table. *)
Definition cache_ok (s : Session) : Prop :=
  ∀ d, sample_cache s = Some d → load_sample_data = Ok d.

(** ** The charts' inputs (lines 113-133)

    The series that the line chart and the bar chart are drawn from, in the
    order in which the script reads them. *)
Record ChartInputs := mkChartInputs {
  trend_x_sales : list value;       (* line 114, x *)
  trend_sales : list value;         (* line 114, y *)
  trend_x_visitors : list value;    (* line 115, x *)
  trend_visitors : list value;      (* line 115, y *)
  bar_x : list value;               (* line 128, x *)
  bar_height : list value           (* line 128, height *)
}.

Definition chart_inputs (filtered : DataFrame) : result ChartInputs :=
  x1 ← getitem filtered "Hari";
  y1 ← getitem filtered "Penjualan";
  x2 ← getitem filtered "Hari";
  y2 ← getitem filtered "Pengunjung";
  x3 ← getitem filtered "Hari";
  y3 ← getitem filtered "Penjualan";
  mret {| trend_x_sales := x1; trend_sales := y1;
          trend_x_visitors := x2; trend_visitors := y2;
          bar_x := x3; bar_height := y3 |}.

(** ** Further notions used in the statements *)

(** The run reads the sample table: nothing was uploaded. *)
Definition no_upload (i : Interaction) : bool :=
  bool_decide (uploaded_file i = None).

(** The integer held by a cell, 0 for any other cell. *)
Definition int_of (v : value) : Z :=
  match v with
  | VInt z => z
  | _ => 0
  end.

(** An upload with a word where a number of sales is expected, and the
    table read from it: the whole column is text. *)
Definition csv_with_text : string :=
  "Hari,Penjualan,Pengunjung
Senin,120,50
Selasa,banyak,60
".

Definition table_with_text : DataFrame :=
  {| columns := ["Hari"; "Penjualan"; "Pengunjung"];
     rows := [ [VStr "Senin"; VStr "120"; VInt 50];
               [VStr "Selasa"; VStr "banyak"; VInt 60] ] |}.


(** A table in which a day comes back after another. *)
Definition table_of_repeated_days : DataFrame :=
  {| columns := ["Hari"; "Penjualan"; "Pengunjung"];
     rows := [ [VStr "Selasa"; VInt 150; VInt 60];
               [VStr "Senin"; VInt 120; VInt 50];
               [VStr "Selasa"; VInt 90; VInt 30] ] |}.


Definition pick_monday : Interaction :=
  {| uploaded_file := None; pick_hari := Some [VStr "Senin"];
     pick_kategori := None |}.

(** A table of two days, read from an upload, whose sales are large. *)
Definition csv_of_large_sales : string :=
  "Hari,Penjualan,Pengunjung
Senin,9223372036854775807,50
Selasa,1,60
".

Definition table_of_large_sales : DataFrame :=
  {| columns := ["Hari"; "Penjualan"; "Pengunjung"];
     rows := [ [VStr "Senin"; VInt 9223372036854775807; VInt 50];
               [VStr "Selasa"; VInt 1; VInt 60] ] |}.

(** The rule that each total is the sum of its column over the filtered
    rows, and each mean its total over the number of filtered rows. *)
Definition totals_are_the_column_sums (g : Globals) : Prop :=
  ∀ a b : list Z,
    getitem (filtered_df g) "Penjualan" = Ok (VInt <$> a) →
    getitem (filtered_df g) "Pengunjung" = Ok (VInt <$> b) →
    total_sales g = VInt (sum_Z a)
    ∧ total_visitors g = VInt (sum_Z b)
    ∧ ((0 < length (rows (filtered_df g)))%nat →
       ∃ qa qb,
         avg_sales g = Mean qa ∧ avg_visitors g = Mean qb
         ∧ (qa == inject_Z (sum_Z a)
                  / inject_Z (Z.of_nat (length (rows (filtered_df g)))))%Q
         ∧ (qb == inject_Z (sum_Z b)
                  / inject_Z (Z.of_nat (length (rows (filtered_df g)))))%Q).

(** * Properties *)

(** ** The error monad *)

Lemma bind_Ok {A B} (m : result A) (f : A → result B) b :
  (m ≫= f) = Ok b ↔ ∃ a, m = Ok a ∧ f a = Ok b.
Proof.
  destruct m as [a|e]; simpl; split.
  - eauto.
  - by intros (a' & [= ->] & ?).
  - done.
  - by intros (a' & ? & ?).
Qed.

Lemma fmap_Ok {A B} (m : result A) (f : A → B) b :
  (f <$> m) = Ok b ↔ ∃ a, m = Ok a ∧ b = f a.
Proof.
  destruct m as [a|e]; simpl; split.
  - intros [= <-]. eauto.
  - by intros (a' & [= ->] & ->).
  - done.
  - by intros (a' & ? & ?).
Qed.

(** Decide a closed proposition by evaluation. *)
Ltac decide_it := apply (bool_decide_unpack _); vm_compute; exact I.

(** Take a successful run apart, statement by statement. *)
Ltac inv_ok H :=
  repeat match type of H with
  | (_ ≫= _) = Ok _ =>
      let a := fresh "x" in let Ha := fresh "E" in
      apply bind_Ok in H as (a & Ha & H)
  | (_ <$> _) = Ok _ =>
      let a := fresh "x" in let Ha := fresh "E" in
      apply fmap_Ok in H as (a & Ha & H)
  | mret _ = Ok _ => injection H as H
  | Ok _ = Ok _ => injection H as H
  end.

(** ** Columns *)

Lemma index_of_Some c cs : c ∈ cs → ∃ j, index_of c cs = Some j ∧ (j < length cs)%nat.
Proof.
  induction cs as [|c' cs IH]; simpl.
  - by intros ?%elem_of_nil.
  - intros Hin. destruct (decide (c' = c)) as [->|Hne].
    + exists O. split; [done | lia].
    + apply elem_of_cons in Hin as [->|Hin]; [done|].
      destruct (IH Hin) as (j & -> & Hj). exists (S j). split; [done | lia].
Qed.

Lemma index_of_None c cs : c ∉ cs → index_of c cs = None.
Proof.
  induction cs as [|c' cs IH]; simpl; [done|].
  intros Hnin. apply not_elem_of_cons in Hnin as [Hne Hnin].
  destruct (decide (c' = c)); [congruence|]. by rewrite IH.
Qed.


Lemma getitem_has d c : c ∈ columns d → ∃ j, index_of c (columns d) = Some j ∧ getitem d c = Ok (cell j <$> rows d).
Proof.
  intros (j & Hj & _)%index_of_Some. exists j. split; [done|].
  unfold getitem. by rewrite Hj.
Qed.

Lemma getitem_lacks d c : c ∉ columns d → getitem d c = Raise (KeyError c).
Proof. intros H%index_of_None. unfold getitem. by rewrite H. Qed.

Lemma getitem_Ok d c s :
  getitem d c = Ok s → ∃ j, index_of c (columns d) = Some j ∧ s = cell j <$> rows d.
Proof.
  unfold getitem. destruct (index_of c (columns d)) as [j|]; [|done].
  intros [= <-]. eauto.
Qed.

Lemma getitem_Ok_in d c s : getitem d c = Ok s → c ∈ columns d.
Proof.
  intros H. destruct (decide (c ∈ columns d)) as [|Hn]; [done|].
  apply getitem_lacks in Hn. congruence.
Qed.

Lemma has_column_true d c : has_column d c = true ↔ c ∈ columns d.
Proof. unfold has_column. by rewrite bool_decide_eq_true. Qed.

Lemma has_column_false d c : has_column d c = false ↔ c ∉ columns d.
Proof. unfold has_column. by rewrite bool_decide_eq_false. Qed.

(** ** Masks *)

Lemma select_map_filter {A} (P : A → Prop) `{!∀ x, Decision (P x)} (l : list A) :
  select ((λ x, bool_decide (P x)) <$> l) l = filter P l.
Proof.
  induction l as [|x l IH]; [done|].
  rewrite filter_cons, fmap_cons. simpl. rewrite IH.
  destruct (decide (P x)).
  - by rewrite bool_decide_eq_true_2.
  - by rewrite bool_decide_eq_false_2.
Qed.

Lemma isin_getitem j (rs : list Row) vals :
  isin (cell j <$> rs) vals = (λ r, bool_decide (cell j r ∈ vals)) <$> rs.
Proof. unfold isin. by rewrite <- list_fmap_compose. Qed.

Lemma select_isin j (rs : list Row) vals :
  select (isin (cell j <$> rs) vals) rs = filter (λ r, cell j r ∈ vals) rs.
Proof. rewrite isin_getitem. apply (select_map_filter (λ r, cell j r ∈ vals)). Qed.

Lemma select_fmap {A B} (f : A → B) mask (l : list A) :
  select mask (f <$> l) = f <$> select mask l.
Proof.
  revert mask. induction l as [|x l IH]; intros [|[] mask]; simpl; try done.
  all: by rewrite IH.
Qed.

(** ** The filter (lines 69-71) *)

Lemma apply_filter_eq d sh sk :
  "Hari" ∈ columns d →
  apply_filter d sh sk
  = Ok {| columns := columns d; rows := filter (keeps d sh sk) (rows d) |}.
Proof.
  intros Hh. unfold apply_filter.
  destruct (getitem_has d "Hari" Hh) as (jh & Ejh & ->). simpl.
  destruct (has_column d "Kategori") eqn:Hk.
  - apply has_column_true in Hk.
    destruct (index_of_Some _ _ Hk) as (jk & Ejk & _).
    unfold getitem. simpl. rewrite Ejk. simpl.
    unfold getitem_mask. simpl. f_equal. f_equal.
    rewrite !select_isin, list_filter_filter. apply list_filter_iff.
    intros r. unfold keeps, field. rewrite Ejh, Ejk. simpl. tauto.
  - apply has_column_false in Hk. simpl.
    unfold getitem_mask. rewrite select_isin. f_equal. f_equal.
    apply list_filter_iff. intros r. unfold keeps, field.
    rewrite Ejh, (index_of_None _ _ Hk). simpl. tauto.
Qed.

Lemma apply_filter_Ok d sh sk f :
  apply_filter d sh sk = Ok f →
  "Hari" ∈ columns d ∧ columns f = columns d
  ∧ rows f = filter (keeps d sh sk) (rows d).
Proof.
  intros H. assert (Hh : "Hari" ∈ columns d).
  { unfold apply_filter in H. inv_ok H. by eapply getitem_Ok_in. }
  rewrite apply_filter_eq in H by done. injection H as <-. done.
Qed.

(** ** Distinct values *)

Lemma elem_of_unique_from seen s v :
  v ∈ unique_from seen s ↔ v ∈ s ∧ v ∉ seen.
Proof.
  revert seen. induction s as [|x s IH]; intros seen; simpl.
  - rewrite !elem_of_nil. tauto.
  - destruct (decide (x ∈ seen)) as [Hx|Hx].
    + rewrite IH, elem_of_cons. split; [tauto|].
      intros [[->|?] ?]; [done | tauto].
    + rewrite !elem_of_cons, IH, elem_of_cons. split.
      * intros [->|[? ?]]; [tauto|]. split; [tauto|]. tauto.
      * intros [[->|?] ?]; [tauto|].
        destruct (decide (v = x)); [tauto|]. right. tauto.
Qed.

Lemma elem_of_unique s v : v ∈ unique s ↔ v ∈ s.
Proof.
  unfold unique. rewrite elem_of_unique_from, elem_of_nil. tauto.
Qed.

Lemma NoDup_unique_from seen s : NoDup (unique_from seen s).
Proof.
  revert seen. induction s as [|x s IH]; intros seen; simpl.
  - constructor.
  - destruct (decide (x ∈ seen)); [apply IH|].
    constructor; [|apply IH].
    rewrite elem_of_unique_from, elem_of_cons. tauto.
Qed.

Lemma NoDup_unique s : NoDup (unique s).
Proof. apply NoDup_unique_from. Qed.

(** ** 64-bit arithmetic *)

Lemma wrap64_small z : in_int64 z → wrap64 z = z.
Proof.
  unfold in_int64, wrap64. change (2 ^ 63) with 9223372036854775808.
  change (2 ^ 64) with 18446744073709551616. intros Hz.
  rewrite Z.mod_small by lia. lia.
Qed.

Lemma wrap64_range z : in_int64 (wrap64 z).
Proof.
  unfold in_int64, wrap64. change (2 ^ 63) with 9223372036854775808.
  change (2 ^ 64) with 18446744073709551616.
  pose proof (Z.mod_pos_bound (z + 9223372036854775808) 18446744073709551616).
  lia.
Qed.

Lemma wrap64_add_l x y : wrap64 (wrap64 x + y) = wrap64 (x + y).
Proof.
  unfold wrap64. f_equal.
  replace ((x + 2 ^ 63) mod 2 ^ 64 - 2 ^ 63 + y + 2 ^ 63)
    with ((x + 2 ^ 63) mod 2 ^ 64 + y) by lia.
  rewrite Zplus_mod_idemp_l. f_equal. lia.
Qed.

Lemma wrap64_add_r x y : wrap64 (x + wrap64 y) = wrap64 (x + y).
Proof. rewrite (Z.add_comm x), wrap64_add_l. f_equal. lia. Qed.

(** ** Cells and dtypes *)

Lemma Forall_is_int s : Forall is_int s ↔ ∃ zs, s = VInt <$> zs.
Proof.
  split.
  - induction 1 as [|v s [z ->] _ [zs ->]]; [by exists []|]. by exists (z :: zs).
  - intros [zs ->]. apply Forall_fmap, Forall_forall. intros z _. by exists z.
Qed.


Lemma as_ints_Some s zs : as_ints s = Some zs ↔ s = VInt <$> zs.
Proof.
  revert zs. induction s as [|[z|t|] s IH]; intros zs; simpl.
  - split; [intros [= <-] | intros H]; [done|]. by destruct zs.
  - destruct (as_ints s) as [zs'|] eqn:E; simpl.
    + split.
      * intros [= <-]. simpl. f_equal. by apply IH.
      * destruct zs as [|z' zs]; [done|]. intros [= -> H].
        apply IH in H. by injection H as ->.
    + split; [done|]. destruct zs as [|z' zs]; [done|].
      intros [= -> H]. by apply IH in H.
  - split; [done|]. by destruct zs.
  - split; [done|]. by destruct zs.
Qed.

Lemma as_ints_fmap zs : as_ints (VInt <$> zs) = Some zs.
Proof. by apply as_ints_Some. Qed.

Lemma dropna_ints zs : dropna (VInt <$> zs) = VInt <$> zs.
Proof.
  unfold dropna. induction zs as [|z zs IH]; [done|].
  rewrite fmap_cons, filter_cons_True by done. by rewrite IH.
Qed.

Lemma elem_of_dropna v s : v ∈ dropna s ↔ v ∈ s ∧ v ≠ VNaN.
Proof. unfold dropna. rewrite list_elem_of_filter. tauto. Qed.



Lemma existsb_is_strb s : existsb is_strb s = true ↔ ∃ t, VStr t ∈ s.
Proof.
  rewrite existsb_exists. split.
  - intros ([| t |] & Hin & Hs); try done. exists t. by apply list_elem_of_In.
  - intros [t Hin]. exists (VStr t). split; [by apply list_elem_of_In | done].
Qed.

Lemma existsb_is_nanb s : existsb is_nanb s = true ↔ VNaN ∈ s.
Proof.
  rewrite existsb_exists. split.
  - intros ([| |] & Hin & Hs); try done. by apply list_elem_of_In.
  - intros Hin. exists VNaN. split; [by apply list_elem_of_In | done].
Qed.

Lemma dtype_of_Text s : dtype_of s = Text ↔ ∃ t, VStr t ∈ s.
Proof.
  rewrite <- existsb_is_strb. unfold dtype_of. destruct s as [|v s]; [done|].
  destruct (existsb is_strb (v :: s)); [done|].
  by destruct (existsb is_nanb (v :: s)).
Qed.




Lemma dtype_of_ints zs :
  dtype_of (VInt <$> zs) = match zs with [] => Object | _ => Int64 end.
Proof.
  destruct zs as [|z zs]; [done|].
  assert (Hs : existsb is_strb (VInt <$> z :: zs) = false).
  { apply not_true_is_false. intros [t Ht]%existsb_is_strb.
    apply list_elem_of_fmap in Ht as (? & ? & _). done. }
  assert (Hn : existsb is_nanb (VInt <$> z :: zs) = false).
  { apply not_true_is_false. intros Ht%existsb_is_nanb.
    apply list_elem_of_fmap in Ht as (? & ? & _). done. }
  unfold dtype_of. rewrite fmap_cons. rewrite fmap_cons in Hs, Hn.
  by rewrite Hs, Hn.
Qed.

Lemma column_dtype_Ok d c s : getitem d c = Ok s → column_dtype d c = dtype_of s.
Proof. intros H. unfold column_dtype. by rewrite H. Qed.

(** ** Sums and means *)

Lemma add_reduce_ints a (zs : list Z) :
  in_int64 a →
  add_reduce (VInt a) (VInt <$> zs) = Ok (VInt (wrap64 (a + sum_Z zs))).
Proof.
  revert a. induction zs as [|z zs IH]; intros a Ha; simpl.
  - rewrite Z.add_0_r. by rewrite wrap64_small.
  - rewrite IH by apply wrap64_range. f_equal. f_equal.
    rewrite wrap64_add_l. f_equal. lia.
Qed.


Lemma Series_sum_Int64 (zs : list Z) :
  Series_sum Int64 (VInt <$> zs) = Ok (VInt (wrap64 (sum_Z zs))).
Proof. simpl. by rewrite add_reduce_ints. Qed.

(** The total of some rows of an integer column. *)
Lemma Series_sum_ints (a zs : list Z) :
  (a = [] → zs = []) →
  Series_sum (dtype_of (VInt <$> a)) (VInt <$> zs) = Ok (VInt (wrap64 (sum_Z zs))).
Proof.
  intros H. rewrite dtype_of_ints. destruct a as [|x a].
  - by rewrite H.
  - apply Series_sum_Int64.
Qed.

Lemma Series_mean_ints (a zs : list Z) :
  Series_mean (dtype_of (VInt <$> a)) (VInt <$> zs) = Ok (mean_of zs).
Proof.
  rewrite dtype_of_ints. unfold Series_mean.
  rewrite dropna_ints, as_ints_fmap. by destruct a.
Qed.


Lemma Series_mean_Ok dt s m :
  Series_mean dt s = Ok m →
  dt ≠ Text ∧ ∃ zs, dropna s = VInt <$> zs ∧ m = mean_of zs.
Proof.
  unfold Series_mean. intros H.
  assert (Hdt : dt ≠ Text) by (by intros ->). split; [done|].
  assert (H' : match as_ints (dropna s) with
               | Some zs => Ok (mean_of zs)
               | None => Raise TypeError
               end = Ok m) by (by destruct dt).
  destruct (as_ints (dropna s)) as [zs|] eqn:E; [|done].
  apply as_ints_Some in E. injection H' as <-. eauto.
Qed.


(** ** A successful run, statement by statement *)

Lemma dashboard_Ok d i g :
  dashboard d i = Ok g →
  df g = d
  ∧ (∃ hari, getitem d "Hari" = Ok hari
       ∧ hari_list g = unique hari
       ∧ selected_hari g = multiselect (unique hari) (unique hari) (pick_hari i))
  ∧ select_kategori d i = Ok (selected_kategori g)
  ∧ apply_filter d (selected_hari g) (selected_kategori g) = Ok (filtered_df g)
  ∧ csv g = to_csv_as (dtypes d) (filtered_df g)
  ∧ (∃ penjualan, getitem (filtered_df g) "Penjualan" = Ok penjualan
       ∧ Series_sum (column_dtype d "Penjualan") penjualan = Ok (total_sales g)
       ∧ Series_mean (column_dtype d "Penjualan") penjualan = Ok (avg_sales g))
  ∧ (∃ pengunjung, getitem (filtered_df g) "Pengunjung" = Ok pengunjung
       ∧ Series_sum (column_dtype d "Pengunjung") pengunjung = Ok (total_visitors g)
       ∧ Series_mean (column_dtype d "Pengunjung") pengunjung = Ok (avg_visitors g))
  ∧ pie d (filtered_df g) = Ok (pie_df g).
Proof.
  intros H. unfold dashboard in H. inv_ok H. subst g. simpl.
  repeat match goal with
  | H1 : ?e = Ok ?a, H2 : ?e = Ok ?b |- _ =>
      assert (a = b) by congruence; subst; clear H2
  end.
  eauto 20.
Qed.

Lemma page_Raise d i e : dashboard d i = Raise e → page d i = Raise e.
Proof. unfold page. by intros ->. Qed.


Lemma script_Ok i s s' g :
  script i s = (s', Ok g) →
  load_data i s = (s', Ok (df g)) ∧ dashboard (df g) i = Ok g.
Proof.
  unfold script, mbind, M_bind, lift.
  destruct (load_data i s) as [s1 [d|e]] eqn:E; [|done].
  intros [= -> H]. pose proof (dashboard_Ok _ _ _ H) as (-> & _). done.
Qed.

(** ** Columns of the filtered frame *)

Lemma getitem_filtered d sh sk f c s :
  apply_filter d sh sk = Ok f → getitem d c = Ok s →
  ∃ j, index_of c (columns d) = Some j
       ∧ s = cell j <$> rows d
       ∧ getitem f c = Ok (cell j <$> filter (keeps d sh sk) (rows d)).
Proof.
  intros (_ & Hc & Hr)%apply_filter_Ok (j & Hj & ->)%getitem_Ok.
  exists j. repeat split; [done|]. unfold getitem. by rewrite Hc, Hj, Hr.
Qed.


Lemma Forall_filtered_column (P : value → Prop) (Q : list value → Prop)
    `{!∀ r, Decision (Q r)} j (rs : list (list value)) :
  Forall P (cell j <$> rs) → Forall P (cell j <$> filter Q rs).
Proof.
  rewrite !Forall_fmap, !Forall_forall. intros HP r [_ Hr]%list_elem_of_filter.
  by apply HP.
Qed.

(** The kept rows of an integer column: integers again, and none if the
    column has none. *)
Lemma getitem_filtered_ints d sh sk f c (zs : list Z) :
  apply_filter d sh sk = Ok f → getitem d c = Ok (VInt <$> zs) →
  ∃ zs', getitem f c = Ok (VInt <$> zs') ∧ (zs = [] → zs' = []).
Proof.
  intros Hf Hc. destruct (getitem_filtered _ _ _ _ _ _ Hf Hc) as (j & _ & E & ->).
  assert (Hi : Forall is_int (cell j <$> filter (keeps d sh sk) (rows d))).
  { apply Forall_filtered_column. rewrite <- E. apply Forall_is_int. eauto. }
  apply Forall_is_int in Hi as [zs' Hzs']. rewrite Hzs'. exists zs'.
  split; [done|]. intros ->. symmetry in E. apply fmap_nil_inv in E.
  rewrite E in Hzs'. simpl in Hzs'. symmetry in Hzs'. by apply fmap_nil_inv in Hzs'.
Qed.

(** ** Group totals *)

Lemma mapM_Ok_fmap {A B} (f : A → result B) (g : A → B) (l : list A) :
  (∀ x, f x = Ok (g x)) → mapM f l = Ok (g <$> l).
Proof.
  intros H. induction l as [|x l IH]; [done|].
  simpl. rewrite H. simpl. by rewrite IH.
Qed.

Lemma select_nil {A} mask : select mask ([] : list A) = [].
Proof. by destruct mask as [|[] mask]. Qed.

Lemma groupby_sum_ints (a : list Z) d key col keys (zs : list Z) :
  (a = [] → zs = []) →
  getitem d key = Ok keys → getitem d col = Ok (VInt <$> zs) →
  groupby_sum (dtype_of (VInt <$> a)) d key col
  = Ok ((λ k, (k, VInt (wrap64 (group_total keys zs k))))
          <$> merge_sort value_le (unique (dropna keys))).
Proof.
  intros Ha Hk Hc. unfold groupby_sum. rewrite Hk, Hc. simpl.
  apply mapM_Ok_fmap. intros k.
  rewrite select_fmap, Series_sum_ints; [done|].
  intros ->%Ha. apply select_nil.
Qed.

(** ** The script returns *)

Lemma select_kategori_total d i : ∃ sk, select_kategori d i = Ok sk.
Proof.
  unfold select_kategori. destruct (has_column d "Kategori") eqn:Hk; [|by eexists].
  apply has_column_true in Hk. destruct (getitem_has _ _ Hk) as (j & _ & ->).
  by eexists.
Qed.

Lemma pie_total d f (a zs : list Z) :
  columns f = columns d →
  getitem d "Penjualan" = Ok (VInt <$> a) → (a = [] → zs = []) →
  getitem f "Penjualan" = Ok (VInt <$> zs) →
  ∃ p, pie d f = Ok p.
Proof.
  intros Hc Ha Haz Hp. unfold pie.
  destruct (has_column d "Kategori") eqn:Hk; [|by eexists].
  apply has_column_true in Hk. rewrite <- Hc in Hk.
  destruct (getitem_has _ _ Hk) as (j & _ & Hkat).
  rewrite (column_dtype_Ok _ _ _ Ha).
  rewrite (groupby_sum_ints _ _ _ _ _ _ Haz Hkat Hp). by eexists.
Qed.

(** With the day column and two integer columns the data of the run is
    computed without an exception. *)
Lemma dashboard_total d i (a b : list Z) :
  "Hari" ∈ columns d →
  getitem d "Penjualan" = Ok (VInt <$> a) →
  getitem d "Pengunjung" = Ok (VInt <$> b) →
  ∃ g, dashboard d i = Ok g.
Proof.
  intros Hh Ha Hb. unfold dashboard.
  destruct (getitem_has _ _ Hh) as (jh & _ & ->). simpl.
  destruct (select_kategori_total d i) as [sk ->]. simpl.
  set (sh := multiselect _ _ _).
  pose proof (apply_filter_eq d sh sk Hh) as Hf. rewrite Hf. simpl.
  destruct (getitem_filtered_ints _ _ _ _ _ _ Hf Ha) as (a' & Ha' & Haa).
  destruct (getitem_filtered_ints _ _ _ _ _ _ Hf Hb) as (b' & Hb' & Hbb).
  rewrite (column_dtype_Ok _ _ _ Ha), (column_dtype_Ok _ _ _ Hb).
  rewrite Ha'. simpl. rewrite Series_sum_ints by done. simpl.
  rewrite Hb'. simpl. rewrite Series_sum_ints by done. simpl.
  rewrite !Series_mean_ints. simpl.
  destruct (pie_total d _ a a' (eq_refl : columns (mkDF _ _) = _) Ha Haa Ha') as [p ->].
  simpl. by eexists.
Qed.

(** ** The session cache *)

Lemma new_session_ok : cache_ok new_session.
Proof. by intros d. Qed.

Lemma load_data_cache_ok i s : cache_ok s → cache_ok (load_data i s).1.
Proof.
  intros Hs. unfold load_data. destruct (uploaded_file i); [done|].
  unfold cached_load_sample_data. destruct (sample_cache s) eqn:E; [done|].
  destruct load_sample_data as [d|e] eqn:El; [|done].
  intros d'. simpl. by intros [= <-].
Qed.

Lemma load_data_fresh i s :
  cache_ok s → (load_data i s).2 = (load_data i new_session).2.
Proof.
  intros Hs. unfold load_data. destruct (uploaded_file i); [done|].
  unfold cached_load_sample_data, new_session. cbn [sample_cache].
  destruct (sample_cache s) as [d|] eqn:E.
  - by rewrite (Hs d E).
  - by destruct load_sample_data.
Qed.

Lemma script_fst i s : (script i s).1 = (load_data i s).1.
Proof.
  unfold script, mbind, M_bind, lift. by destruct (load_data i s) as [s1 [d|e]].
Qed.

Lemma script_snd i s :
  (script i s).2 = ((load_data i s).2 ≫= λ d, dashboard d i).
Proof.
  unfold script, mbind at 1, M_bind, lift. by destruct (load_data i s) as [s1 [d|e]].
Qed.

Lemma script_cache_ok i s : cache_ok s → cache_ok (script i s).1.
Proof. rewrite script_fst. apply load_data_cache_ok. Qed.

Lemma script_fresh i s : cache_ok s → (script i s).2 = (script i new_session).2.
Proof. intros Hs. by rewrite !script_snd, load_data_fresh. Qed.

Lemma session_runs_cache_ok its s : cache_ok s → cache_ok (session_runs s its).1.
Proof.
  revert s. induction its as [|i its IH]; intros s Hs; [done|].
  simpl. pose proof (script_cache_ok i s Hs) as Hs'.
  destruct (script i s) as [s1 r]. specialize (IH s1 Hs').
  by destruct (session_runs s1 its).
Qed.

(** ** The claims *)

Lemma filtered_rows_aux d i g :
  dashboard d i = Ok g →
  rows (filtered_df g)
  = filter (keeps d (selected_hari g) (selected_kategori g)) (rows d).
Proof.
  intros (_ & _ & _ & Hf & _)%dashboard_Ok.
  by apply apply_filter_Ok in Hf as (_ & _ & Hr).
Qed.

(** C1: the filtered rows are exactly the rows of the dataset whose day is
    among the selected days and, when the table has a category column, whose
    category is among the selected categories; they are a subsequence of
    the dataset's rows.  The selection is whatever the two widgets hold. *)
Theorem filtered_rows_are_the_selected_rows d i g :
  dashboard d i = Ok g →
  rows (filtered_df g)
  = filter (keeps d (selected_hari g) (selected_kategori g)) (rows d)
  ∧ sublist (rows (filtered_df g)) (rows d)
  ∧ columns (filtered_df g) = columns d
  ∧ (∀ sh, pick_hari i = Some sh → selected_hari g = sh)
  ∧ (∀ sk, pick_kategori i = Some sk → "Kategori" ∈ columns d →
           selected_kategori g = sk).
Proof.
  intros (_ & (hari & _ & _ & Hsh) & Hsk & Hf & _)%dashboard_Ok.
  apply apply_filter_Ok in Hf as (_ & Hc & Hr).
  split; [done|]. split; [rewrite Hr; apply sublist_filter|]. split; [done|].
  split.
  - intros sh E. by rewrite Hsh, E.
  - intros sk E Hk. unfold select_kategori in Hsk.
    rewrite (proj2 (has_column_true _ _) Hk) in Hsk. inv_ok Hsk.
    by rewrite <- Hsk, E.
Qed.

Lemma filtered_rows_witness :
  ∃ g, dashboard sample_table pick_weekend = Ok g
       ∧ rows (filtered_df g)
         = [ [VStr "Senin"; VStr "Makanan"; VInt 120; VInt 50];
             [VStr "Minggu"; VStr "Makanan"; VInt 180; VInt 100] ]
       ∧ rows (filtered_df g)
         = filter (keeps sample_table (selected_hari g) (selected_kategori g))
                  (rows sample_table).
Proof.
  eexists. split; [vm_compute; reflexivity|]. split; [reflexivity|].
  eapply proj1, (filtered_rows_are_the_selected_rows sample_table pick_weekend).
  vm_compute. reflexivity.
Defined.

Lemma getitem_length d c s : getitem d c = Ok s → length s = length (rows d).
Proof. intros (j & _ & ->)%getitem_Ok. apply length_fmap. Qed.

(** The claim C2 as written fails: on this upload the two sales add up to
    2^63, which is no int64, and the total shown is -2^63, not the sum of
    the column over the filtered rows; the mean is taken in floating point
    and is not that total over the count either. *)
Lemma totals_wrap_around :
  read_csv csv_of_large_sales = Ok table_of_large_sales
  ∧ ∃ g, dashboard table_of_large_sales first_view = Ok g
         ∧ getitem (filtered_df g) "Penjualan"
           = Ok (VInt <$> [9223372036854775807; 1])
         ∧ total_sales g = VInt (-9223372036854775808)
         ∧ avg_sales g = Rounded (9223372036854775808 # 2)
         ∧ ¬ totals_are_the_column_sums g.
Proof.
  split; [vm_compute; reflexivity|].
  eexists. split; [vm_compute; reflexivity|].
  split; [reflexivity|]. split; [reflexivity|]. split; [reflexivity|].
  intros H.
  destruct (H [9223372036854775807; 1] [50; 60] eq_refl eq_refl) as (Hs & _).
  vm_compute in Hs. discriminate Hs.
Qed.

(** C2, as the code has it: on a table whose Penjualan and Pengunjung
    columns are int64 columns, the total of sales is the 64-bit sum of the
    Penjualan column over the filtered rows, and the sum itself when that
    is an int64; the same for the visitors.  When there is at least one
    filtered row and the magnitudes of a column's filtered values add up
    to 2^53 at most, its mean is the float64 nearest to the sum divided by
    the number of filtered rows. *)
Theorem totals_and_means d i g (a b : list Z) :
  dashboard d i = Ok g →
  int64_column d "Penjualan" a →
  int64_column d "Pengunjung" b →
  ∃ sales visitors : list Z,
    getitem (filtered_df g) "Penjualan" = Ok (VInt <$> sales)
    ∧ getitem (filtered_df g) "Pengunjung" = Ok (VInt <$> visitors)
    ∧ total_sales g = VInt (wrap64 (sum_Z sales))
    ∧ total_visitors g = VInt (wrap64 (sum_Z visitors))
    ∧ (in_int64 (sum_Z sales) → total_sales g = VInt (sum_Z sales))
    ∧ (in_int64 (sum_Z visitors) → total_visitors g = VInt (sum_Z visitors))
    ∧ ((0 < length (rows (filtered_df g)))%nat →
       (sum_Z (Z.abs <$> sales) <= 2 ^ 53 →
        avg_sales g
        = Mean (inject_Z (sum_Z sales)
                / inject_Z (Z.of_nat (length (rows (filtered_df g))))))
       ∧ (sum_Z (Z.abs <$> visitors) <= 2 ^ 53 →
          avg_visitors g
          = Mean (inject_Z (sum_Z visitors)
                  / inject_Z (Z.of_nat (length (rows (filtered_df g))))))).
Proof.
  intros Hg [Ha _] [Hb _].
  pose proof (dashboard_Ok _ _ _ Hg)
    as (_ & _ & _ & Hf & _ & (pen & Hp & Hps & Hpm) & (vis & Hv & Hvs & Hvm) & _).
  destruct (getitem_filtered_ints _ _ _ _ _ _ Hf Ha) as (sales & Hsales & Hse).
  destruct (getitem_filtered_ints _ _ _ _ _ _ Hf Hb) as (visitors & Hvisitors & Hve).
  rewrite Hsales in Hp. injection Hp as <-.
  rewrite Hvisitors in Hv. injection Hv as <-.
  rewrite (column_dtype_Ok _ _ _ Ha) in Hps, Hpm.
  rewrite (column_dtype_Ok _ _ _ Hb) in Hvs, Hvm.
  rewrite Series_sum_ints in Hps, Hvs by done.
  rewrite Series_mean_ints in Hpm, Hvm.
  injection Hps as Hps. injection Hvs as Hvs.
  injection Hpm as Hpm. injection Hvm as Hvm.
  exists sales, visitors.
  split; [done|]. split; [done|]. split; [done|]. split; [done|].
  split; [intros Hr; by rewrite <- Hps, wrap64_small|].
  split; [intros Hr; by rewrite <- Hvs, wrap64_small|].
  intros Hn. split; intros Hbound.
  - apply getitem_length in Hsales. rewrite length_fmap in Hsales.
    rewrite <- Hsales in *. rewrite <- Hpm. unfold mean_of.
    destruct sales; [simpl in Hn; lia|]. by rewrite decide_True.
  - apply getitem_length in Hvisitors. rewrite length_fmap in Hvisitors.
    rewrite <- Hvisitors in *. rewrite <- Hvm. unfold mean_of.
    destruct visitors; [simpl in Hn; lia|]. by rewrite decide_True.
Qed.

Lemma totals_and_means_witness :
  ∃ g, dashboard sample_table pick_weekend = Ok g
       ∧ ∃ sales visitors : list Z,
           getitem (filtered_df g) "Penjualan" = Ok (VInt <$> sales)
           ∧ getitem (filtered_df g) "Pengunjung" = Ok (VInt <$> visitors)
           ∧ total_sales g = VInt (wrap64 (sum_Z sales))
           ∧ total_visitors g = VInt (wrap64 (sum_Z visitors)).
Proof.
  eassert (dashboard sample_table pick_weekend = Ok _) as Hg
    by (vm_compute; reflexivity).
  eexists. split; [exact Hg|].
  edestruct (totals_and_means sample_table pick_weekend _
               [120; 150; 90; 170; 200; 220; 180] [50; 60; 30; 80; 90; 120; 100] Hg)
    as (sales & visitors & Hs & Hv & Hts & Htv & _);
    [split; [reflexivity | decide_it] | split; [reflexivity | decide_it] |].
  exists sales, visitors. split; [exact Hs|]. split; [exact Hv|].
  split; [exact Hts | exact Htv].
Defined.

Lemma load_sample_data_eq : load_sample_data = Ok sample_table.
Proof. reflexivity. Qed.

(** C5: with no file uploaded the data source is the built-in table: the
    columns Hari, Kategori, Penjualan, Pengunjung and the seven rows
    Senin/Makanan/120/50, Selasa/Minuman/150/60, Rabu/Makanan/90/30,
    Kamis/Minuman/170/80, Jumat/Makanan/200/90, Sabtu/Minuman/220/120,
    Minggu/Makanan/180/100, on the first run of a session and on every
    later one. *)
Theorem no_upload_gives_sample_table (its : list Interaction) (i : Interaction) :
  uploaded_file i = None →
  (load_data i (session_runs new_session its).1).2
  = Ok {| columns := ["Hari"; "Kategori"; "Penjualan"; "Pengunjung"];
          rows := [ [VStr "Senin"; VStr "Makanan"; VInt 120; VInt 50];
                    [VStr "Selasa"; VStr "Minuman"; VInt 150; VInt 60];
                    [VStr "Rabu"; VStr "Makanan"; VInt 90; VInt 30];
                    [VStr "Kamis"; VStr "Minuman"; VInt 170; VInt 80];
                    [VStr "Jumat"; VStr "Makanan"; VInt 200; VInt 90];
                    [VStr "Sabtu"; VStr "Minuman"; VInt 220; VInt 120];
                    [VStr "Minggu"; VStr "Makanan"; VInt 180; VInt 100] ] |}.
Proof.
  intros Hu. rewrite load_data_fresh
    by apply session_runs_cache_ok, new_session_ok.
  unfold load_data. rewrite Hu. reflexivity.
Qed.

Lemma no_upload_witness :
  uploaded_file first_view = None
  ∧ (load_data first_view (session_runs new_session [pick_weekend; first_view]).1).2
    = Ok sample_table.
Proof.
  split; [reflexivity|].
  apply (no_upload_gives_sample_table [pick_weekend; first_view] first_view).
  reflexivity.
Defined.


Lemma Series_sum_nil dt : dt ≠ Text → Series_sum dt [] = Ok (VInt 0).
Proof. by destruct dt. Qed.





(** C7: on the sample table with every day and every category selected (the
    filters untouched, or every value picked by hand) the total of sales is
    1130, the total of visitors 530, and the means are 1130/7 and 530/7,
    that is 161.43 and 75.71 to two decimals. *)
Theorem sample_kpis :
  Forall (λ i, ∃ s' g,
      script i new_session = (s', Ok g)
      ∧ total_sales g = VInt 1130 ∧ total_visitors g = VInt 530
      ∧ ∃ qa qb, avg_sales g = Mean qa ∧ avg_visitors g = Mean qb
          ∧ (qa == 1130 # 7)%Q ∧ (qb == 530 # 7)%Q
          ∧ ((16143 # 100) - (1 # 200) <= qa)%Q ∧ (qa <= (16143 # 100) + (1 # 200))%Q
          ∧ ((7571 # 100) - (1 # 200) <= qb)%Q ∧ (qb <= (7571 # 100) + (1 # 200))%Q)
    [first_view; pick_everything].
Proof.
  repeat constructor.
  all: eexists _, _; split; [vm_compute; reflexivity|].
  all: split; [reflexivity|]; split; [reflexivity|].
  all: eexists _, _; split; [reflexivity|]; split; [reflexivity|].
  all: cbv; repeat split; discriminate.
Qed.

Lemma filter_all {A} (P : A → Prop) `{!∀ x, Decision (P x)} (l : list A) :
  (∀ x, x ∈ l → P x) → filter P l = l.
Proof.
  induction l as [|x l IH]; intros Hall; [done|].
  rewrite filter_cons_True by (apply Hall; left).
  f_equal. apply IH. intros y Hy. apply Hall. by right.
Qed.

(** C10: with both filters untouched the selected days are the distinct
    values of the day column and, when there is a category column, the
    selected categories are the distinct values of that column; the filtered
    frame is then the whole dataset. *)
Theorem default_selection_keeps_everything d i g :
  pick_hari i = None → pick_kategori i = None →
  dashboard d i = Ok g →
  (∃ hari, getitem d "Hari" = Ok hari
     ∧ selected_hari g = unique hari
     ∧ NoDup (selected_hari g)
     ∧ ∀ v, v ∈ selected_hari g ↔ v ∈ hari)
  ∧ (∀ kategori, getitem d "Kategori" = Ok kategori →
       selected_kategori g = unique kategori
       ∧ NoDup (selected_kategori g)
       ∧ ∀ v, v ∈ selected_kategori g ↔ v ∈ kategori)
  ∧ filtered_df g = d.
Proof.
  intros Eh Ek (_ & (hari & Hh & _ & Hsh) & Hsk & Hf & _)%dashboard_Ok.
  rewrite Eh in Hsh. simpl in Hsh.
  assert (Hkat : ∀ kategori, getitem d "Kategori" = Ok kategori →
                 selected_kategori g = unique kategori).
  { intros kategori Hg. unfold select_kategori in Hsk.
    rewrite (proj2 (has_column_true _ _) (getitem_Ok_in _ _ _ Hg)), Hg, Ek in Hsk.
    simpl in Hsk. by injection Hsk as <-. }
  split; [|split].
  - exists hari. rewrite Hsh. split; [done|]. split; [done|].
    split; [apply NoDup_unique | apply elem_of_unique].
  - intros kategori Hg. rewrite (Hkat _ Hg).
    split; [done|]. split; [apply NoDup_unique | apply elem_of_unique].
  - apply apply_filter_Ok in Hf as (_ & Hc & Hr).
    destruct (filtered_df g) as [fc fr], d as [dc dr]. simpl in *. subst fc. f_equal.
    rewrite Hr. apply filter_all. intros r Hr'.
    apply getitem_Ok in Hh as (jh & Ejh & ->). simpl in Ejh.
    unfold keeps, field. simpl. rewrite Ejh. simpl. split.
    + rewrite Hsh. apply elem_of_unique, list_elem_of_fmap. eauto.
    + destruct (index_of "Kategori" dc) as [jk|] eqn:Ejk; [|done]. simpl.
      rewrite (Hkat (cell jk <$> dr)).
      * apply elem_of_unique, list_elem_of_fmap. eauto.
      * unfold getitem. simpl. by rewrite Ejk.
Qed.

Lemma default_selection_witness :
  ∃ g, dashboard sample_table first_view = Ok g
       ∧ selected_hari g
         = VStr <$> ["Senin"; "Selasa"; "Rabu"; "Kamis"; "Jumat"; "Sabtu"; "Minggu"]
       ∧ selected_kategori g = VStr <$> ["Makanan"; "Minuman"]
       ∧ filtered_df g = sample_table.
Proof.
  eexists. split; [vm_compute; reflexivity|].
  split; [reflexivity|]. split; [reflexivity|].
  eapply proj2, proj2, (default_selection_keeps_everything sample_table first_view);
    [reflexivity | reflexivity | vm_compute; reflexivity].
Defined.

(** ** The order of the group keys *)

#[global] Instance value_le_total : Total value_le.
Proof.
  intros [a|a|] [b|b|]; unfold value_le; simpl; auto.
  - destruct (Z.leb_spec a b), (Z.leb_spec b a); simpl; auto. lia.
  - destruct (String.leb_total a b) as [->| ->]; simpl; auto.
Qed.

Lemma fst_tagged {A B} (h : A → B) (l : list A) : ((λ k, (k, h k)) <$> l).*1 = l.
Proof. induction l as [|x l IH]; [done|]. rewrite !fmap_cons. simpl. by f_equal. Qed.

(** The claim C3 as written fails: with Tuesday and Wednesday selected the
    filtered rows are Selasa/Minuman, Rabu/Makanan, so Minuman occurs first,
    but the totals are keyed Makanan, Minuman. *)
Lemma pie_keys_not_by_first_occurrence :
  ∃ s' g, script pick_two_days new_session = (s', Ok g)
          ∧ rows (filtered_df g)
            = [ [VStr "Selasa"; VStr "Minuman"; VInt 150; VInt 60];
                [VStr "Rabu"; VStr "Makanan"; VInt 90; VInt 30] ]
          ∧ pie_df g = Some [(VStr "Makanan", VInt 90); (VStr "Minuman", VInt 150)]
          ∧ ¬ pie_keys_by_first_occurrence g.
Proof.
  eexists _, _. split; [vm_compute; reflexivity|].
  split; [reflexivity|]. split; [reflexivity|].
  intros H. specialize (H _ _ eq_refl eq_refl). vm_compute in H. discriminate H.
Qed.

(** C3, amended: when the table has a category column whose cells, where
    not missing, are of one type, and its Penjualan column is an int64
    column, the totals of the pie chart have one entry for each category
    that occurs in the filtered rows, a missing category apart, holding
    the 64-bit sum of Penjualan over the filtered rows of that category
    (the sum itself when it is an int64); the entries come in ascending
    order of the category (the order of [groupby], which sorts its keys),
    not in order of first occurrence. *)
Theorem pie_totals_sorted_by_category d i g (a : list Z) categories :
  dashboard d i = Ok g →
  getitem d "Kategori" = Ok categories → homogeneous categories →
  int64_column d "Penjualan" a →
  ∃ p kategori zs,
    pie_df g = Some p
    ∧ getitem (filtered_df g) "Kategori" = Ok kategori
    ∧ getitem (filtered_df g) "Penjualan" = Ok (VInt <$> zs)
    ∧ p.*1 = merge_sort value_le (unique (dropna kategori))
    ∧ Sorted value_le p.*1 ∧ NoDup p.*1
    ∧ (∀ k, k ∈ p.*1 ↔ k ∈ kategori ∧ k ≠ VNaN)
    ∧ (∀ k v, (k, v) ∈ p → v = VInt (wrap64 (group_total kategori zs k)))
    ∧ (∀ k v, (k, v) ∈ p → in_int64 (group_total kategori zs k) →
              v = VInt (group_total kategori zs k)).
Proof.
  intros Hg Hk%getitem_Ok_in _ [Ha _].
  pose proof (dashboard_Ok _ _ _ Hg) as (_ & _ & _ & Hf & _ & _ & _ & Hpie).
  destruct (getitem_filtered_ints _ _ _ _ _ _ Hf Ha) as (zs & Hp & Haz).
  apply apply_filter_Ok in Hf as (_ & Hc & _).
  assert (Hk' : "Kategori" ∈ columns (filtered_df g)) by by rewrite Hc.
  destruct (getitem_has _ _ Hk') as (jk & _ & Hkat).
  unfold pie in Hpie. rewrite (proj2 (has_column_true _ _) Hk) in Hpie.
  rewrite (column_dtype_Ok _ _ _ Ha) in Hpie.
  rewrite (groupby_sum_ints _ _ _ _ _ _ Haz Hkat Hp) in Hpie. simpl in Hpie.
  injection Hpie as Hpie. eexists _, _, zs. split; [done|].
  split; [done|]. split; [done|]. rewrite fst_tagged.
  split; [done|]. split; [apply Sorted_merge_sort, _|].
  split; [|split; [|split]].
  - rewrite merge_sort_Permutation. apply NoDup_unique.
  - intros k. rewrite merge_sort_Permutation, elem_of_unique. apply elem_of_dropna.
  - intros k v (k' & [= -> ->] & _)%list_elem_of_fmap. done.
  - intros k v (k' & [= -> ->] & _)%list_elem_of_fmap Hr. by rewrite wrap64_small.
Qed.

Lemma pie_totals_witness :
  ∃ g, dashboard sample_table pick_two_days = Ok g
       ∧ ∃ p kategori zs,
           pie_df g = Some p
           ∧ getitem (filtered_df g) "Kategori" = Ok kategori
           ∧ getitem (filtered_df g) "Penjualan" = Ok (VInt <$> zs)
           ∧ p.*1 = merge_sort value_le (unique (dropna kategori))
           ∧ Sorted value_le p.*1 ∧ NoDup p.*1
           ∧ (∀ k, k ∈ p.*1 ↔ k ∈ kategori ∧ k ≠ VNaN)
           ∧ (∀ k v, (k, v) ∈ p → v = VInt (wrap64 (group_total kategori zs k))).
Proof.
  eassert (dashboard sample_table pick_two_days = Ok _) as Hg
    by (vm_compute; reflexivity).
  eexists. split; [exact Hg|].
  edestruct (pie_totals_sorted_by_category sample_table pick_two_days _
               [120; 150; 90; 170; 200; 220; 180]
               (VStr <$> ["Makanan"; "Minuman"; "Makanan"; "Minuman";
                          "Makanan"; "Minuman"; "Makanan"]) Hg)
    as (p & kategori & zs & H1 & H2 & H3 & H4 & H5 & H6 & H7 & H8 & _);
    [reflexivity
    | right; apply Forall_fmap, Forall_forall; intros t _; right; by eexists
    | split; [reflexivity | decide_it] |].
  exists p, kategori, zs. repeat (split; [assumption|]). assumption.
Defined.

(** ** Frames read from CSV text *)

Lemma length_pad n (r : list string) : (length r ≤ n)%nat → length (pad n r) = n.
Proof. intros H. unfold pad. rewrite length_app, length_replicate. lia. Qed.

Lemma read_csv_Ok text d :
  read_csv text = Ok d →
  ∃ (data : list (list string)) (kinds : list kind),
    Forall (λ r : list string, length r = length (columns d)) data
    ∧ length kinds = length (columns d)
    ∧ rows d = zip_with convert kinds <$> data.
Proof.
  unfold read_csv. destruct (utf8_valid text); [|done]. intros H. inv_ok H.
  destruct x as [|header data]; [done|].
  destruct (labels_ok header && forallb _ data) eqn:Elen; [|done].
  destruct (bool_decide _); [done|]. injection H as <-.
  eexists _, _. split; [|split; [|reflexivity]].
  - apply andb_true_iff in Elen as [_ Elen]. apply Forall_fmap, Forall_forall.
    intros r Hr. apply length_pad. rewrite forallb_forall in Elen.
    apply Nat.leb_le, Elen. by apply list_elem_of_In.
  - by rewrite length_fmap, length_seq.
Qed.



Lemma read_csv_wf text d : read_csv text = Ok d → wf d.
Proof.
  intros (data & kinds & Hlen & Hkinds & Hrows)%read_csv_Ok. unfold wf. rewrite Hrows.
  apply Forall_fmap. eapply Forall_impl; [exact Hlen|].
  intros r Hr. simpl in *. rewrite length_zip_with. lia.
Qed.






(** ** Missing columns *)






(** ** Runs of a session *)

Lemma script_in_session its i s' g :
  script i (session_runs new_session its).1 = (s', Ok g) →
  (load_data i new_session).2 = Ok (df g)
  ∧ dashboard (df g) i = Ok g
  ∧ cache_ok s'.
Proof.
  intros H. pose proof (session_runs_cache_ok its _ new_session_ok) as Hs.
  pose proof (script_cache_ok i _ Hs) as Hs'. rewrite H in Hs'. simpl in Hs'.
  apply script_Ok in H as [Hl Hd].
  rewrite <- (load_data_fresh i _ Hs), Hl. done.
Qed.

(** C9: a run leaves the loaded dataset as it was loaded: when the run
    ends, [df] is the table read from this run's upload, or the sample
    table, whatever was selected in earlier runs; the filter is applied to
    the rows of that whole table; the result is the one a fresh session
    gives; and the cached sample table is still the sample table. *)
Theorem runs_leave_the_dataset_unchanged its i s' g :
  script i (session_runs new_session its).1 = (s', Ok g) →
  (load_data i new_session).2 = Ok (df g)
  ∧ rows (filtered_df g)
    = filter (keeps (df g) (selected_hari g) (selected_kategori g)) (rows (df g))
  ∧ (script i new_session).2 = Ok g
  ∧ (∀ d, sample_cache s' = Some d → d = sample_table).
Proof.
  intros H. pose proof (session_runs_cache_ok its _ new_session_ok) as Hs.
  pose proof (script_fresh i _ Hs) as Hfresh. rewrite H in Hfresh.
  apply script_in_session in H as (Hl & Hd & Hs').
  split; [done|]. split; [|split].
  - exact (filtered_rows_aux _ _ _ Hd).
  - done.
  - intros d Hc. apply Hs' in Hc. rewrite load_sample_data_eq in Hc. congruence.
Qed.

Lemma runs_leave_the_dataset_witness :
  ∃ s' g,
    script first_view (session_runs new_session [pick_two_days; pick_weekend]).1
    = (s', Ok g)
    ∧ df g = sample_table
    ∧ filtered_df g = sample_table
    ∧ (script first_view new_session).2 = Ok g
    ∧ sample_cache s' = Some sample_table.
Proof.
  eexists _, _. split; [vm_compute; reflexivity|].
  split; [reflexivity|]. split; [reflexivity|]. split; [|reflexivity].
  eapply proj1, proj2, proj2,
    (runs_leave_the_dataset_unchanged [pick_two_days; pick_weekend] first_view).
  vm_compute. reflexivity.
Defined.

(** ** Export and re-import *)

(** Whatever the filter keeps of the sample table, the exported text reads
    back as the same frame. *)
Lemma sample_roundtrip (P : list value → Prop) `{!∀ r, Decision (P r)} :
  read_csv (to_csv_as (dtypes sample_table)
              {| columns := columns sample_table;
                 rows := filter P (rows sample_table) |})
  = Ok {| columns := columns sample_table;
          rows := filter P (rows sample_table) |}.
Proof.
  unfold sample_table. cbn [rows columns].
  rewrite !filter_cons, filter_nil.
  repeat match goal with
  | |- context [decide ?Q] => destruct (decide Q)
  end; vm_compute; reflexivity.
Qed.

(** C8: on the sample table, whatever is selected, the text offered for
    download (header line, then one line per filtered row) is read back by
    the CSV reader as the filtered frame itself, row for row and column for
    column. *)
Theorem sample_export_reads_back its i s' g :
  uploaded_file i = None →
  script i (session_runs new_session its).1 = (s', Ok g) →
  read_csv (csv g) = Ok (filtered_df g).
Proof.
  intros Hu (Hl & Hd & _)%script_in_session.
  assert (Hs : df g = sample_table).
  { unfold load_data in Hl. rewrite Hu in Hl.
    change (Ok sample_table = Ok (df g)) in Hl. congruence. }
  rewrite Hs in Hd.
  apply dashboard_Ok in Hd as (_ & _ & _ & Hf & -> & _).
  apply apply_filter_Ok in Hf as (_ & Hc & Hr).
  destruct (filtered_df g) as [fc fr]. simpl in Hc, Hr. subst fc fr.
  apply sample_roundtrip.
Qed.

Lemma sample_export_witness :
  ∃ s' g,
    script pick_weekend (session_runs new_session [first_view]).1 = (s', Ok g)
    ∧ csv g = "Hari,Kategori,Penjualan,Pengunjung
Senin,Makanan,120,50
Minggu,Makanan,180,100
"
    ∧ read_csv (csv g) = Ok (filtered_df g).
Proof.
  eexists _, _. split; [vm_compute; reflexivity|]. split; [reflexivity|].
  eapply (sample_export_reads_back [first_view] pick_weekend);
    [reflexivity | vm_compute; reflexivity].
Defined.

(** * Further properties of the script *)

(** ** Runs on the sample table *)

Lemma sample_pie (P : list value → Prop) `{!∀ r, Decision (P r)} :
  ∃ p, pie sample_table {| columns := columns sample_table;
                           rows := filter P (rows sample_table) |}
       = Ok (Some p)
       ∧ ax_pie p = if decide (filter P (rows sample_table) = [])
                    then Raise ValueError else Ok ().
Proof.
  unfold sample_table. cbn [rows columns].
  rewrite !filter_cons, filter_nil.
  repeat match goal with
  | |- context [decide (P ?r)] => destruct (decide (P r))
  end; (eexists; split; [vm_compute; reflexivity | reflexivity]).
Qed.

(** X1: on the built-in table the data of a run is computed whatever is
    selected, and the run stops in one case only: when the selection
    keeps no row, the pie chart has no wedge and its drawing raises
    ValueError. *)
Theorem sample_run_stops_iff_no_row_is_kept i :
  ∃ g, dashboard sample_table i = Ok g
       ∧ page sample_table i
         = if decide (rows (filtered_df g) = []) then Raise ValueError else Ok g.
Proof.
  destruct (dashboard_total sample_table i [120; 150; 90; 170; 200; 220; 180]
              [50; 60; 30; 80; 90; 120; 100]) as [g Hg];
    [decide_it | reflexivity | reflexivity |].
  exists g. split; [done|].
  pose proof (dashboard_Ok _ _ _ Hg) as (_ & _ & _ & Hf & _ & _ & _ & Hpie).
  apply apply_filter_Ok in Hf as (_ & Hc & Hr).
  destruct (sample_pie (keeps sample_table (selected_hari g) (selected_kategori g)))
    as (p & Hp & Hax).
  unfold page. rewrite Hg. cbn [mbind result_bind].
  destruct (filtered_df g) as [fc fr]. cbn [columns rows] in Hc, Hr |- *.
  subst fc fr. rewrite Hp in Hpie. injection Hpie as <-.
  rewrite Hax. by destruct (decide (filter _ _ = [])).
Qed.

(** ** Text where numbers are expected *)

Lemma add_reduce_exn acc s e : add_reduce acc s = Raise e → e = TypeError.
Proof.
  revert acc. induction s as [|v s IH]; intros acc; simpl; [done|].
  destruct acc as [a|a|], v as [b|b|]; simpl; try (by intros [= <-]); apply IH.
Qed.

Lemma Series_sum_exn dt s e : Series_sum dt s = Raise e → e = TypeError.
Proof.
  destruct dt; simpl.
  - apply add_reduce_exn.
  - destruct (as_ints (dropna s)); [done | by intros [= <-]].
  - destruct (dropna s) as [|v s']; [done | apply add_reduce_exn].
  - destruct s as [|v s']; [done | apply add_reduce_exn].
Qed.

Lemma Series_mean_exn dt s e : Series_mean dt s = Raise e → e = TypeError.
Proof.
  unfold Series_mean.
  destruct dt; try (by intros [= <-]);
    (destruct (as_ints (dropna s)); [done | by intros [= <-]]).
Qed.

Lemma column_dtype_Text d c r t :
  r ∈ rows d → field d c r = Some (VStr t) → column_dtype d c = Text.
Proof.
  intros Hr Hf. unfold field in Hf.
  destruct (index_of c (columns d)) as [j|] eqn:Hj; [|done].
  injection Hf as Hf. unfold column_dtype, getitem. rewrite Hj.
  apply dtype_of_Text. exists t. rewrite <- Hf. apply list_elem_of_fmap. eauto.
Qed.

(** X2: on a table that has the day column and the two numeric columns, a
    word in a cell of the Penjualan or of the Pengunjung column makes the
    run raise TypeError, whatever is selected: also when the row of that
    cell is filtered out, and when no row is left. *)
Theorem text_in_a_numeric_column_raises_TypeError d i r c t :
  "Hari" ∈ columns d → "Penjualan" ∈ columns d → "Pengunjung" ∈ columns d →
  r ∈ rows d → c ∈ ["Penjualan"; "Pengunjung"] → field d c r = Some (VStr t) →
  dashboard d i = Raise TypeError ∧ page d i = Raise TypeError.
Proof.
  intros Hh Hp Hv Hr Hc Hf.
  assert (Hd : dashboard d i = Raise TypeError); [|by rewrite (page_Raise _ _ _ Hd)].
  pose proof (column_dtype_Text _ _ _ _ Hr Hf) as Ht.
  unfold dashboard.
  destruct (getitem_has _ _ Hh) as (jh & _ & ->). simpl.
  destruct (select_kategori_total d i) as [sk ->]. simpl.
  set (sh := multiselect _ _ _).
  rewrite (apply_filter_eq d sh sk Hh). simpl.
  set (f := {| columns := columns d; rows := filter (keeps d sh sk) (rows d) |}).
  destruct (getitem_has f _ Hp) as (jp & _ & ->).
  destruct (getitem_has f _ Hv) as (jv & _ & ->). simpl.
  destruct (Series_sum (column_dtype d "Penjualan") _) as [ts|e] eqn:Es; simpl;
    [|by rewrite (Series_sum_exn _ _ _ Es)].
  destruct (Series_sum (column_dtype d "Pengunjung") _) as [tv|e] eqn:Ev; simpl;
    [|by rewrite (Series_sum_exn _ _ _ Ev)].
  destruct (Series_mean (column_dtype d "Penjualan") _) as [ms|e] eqn:Ems; simpl;
    [|by rewrite (Series_mean_exn _ _ _ Ems)].
  destruct (Series_mean (column_dtype d "Pengunjung") _) as [mv|e] eqn:Emv; simpl;
    [|by rewrite (Series_mean_exn _ _ _ Emv)].
  exfalso.
  repeat (apply elem_of_cons in Hc as [->|Hc]); [| |by apply elem_of_nil in Hc].
  - by rewrite Ht in Ems.
  - by rewrite Ht in Emv.
Qed.

Lemma text_in_a_numeric_column_witness :
  read_csv csv_with_text = Ok table_with_text
  ∧ dashboard table_with_text pick_monday = Raise TypeError
  ∧ page table_with_text pick_monday = Raise TypeError.
Proof.
  split; [vm_compute; reflexivity|].
  apply (text_in_a_numeric_column_raises_TypeError table_with_text pick_monday
           [VStr "Selasa"; VStr "banyak"; VInt 60] "Penjualan" "banyak").
  1-3: by apply (bool_decide_unpack _).
  - apply (bool_decide_unpack _). vm_compute. exact I.
  - by apply (bool_decide_unpack _).
  - reflexivity.
Defined.

(** ** The group totals and the total *)

Lemma sum_Z_fmap_add {A} (h1 h2 : A → Z) (l : list A) :
  sum_Z ((λ k, h1 k + h2 k) <$> l) = sum_Z (h1 <$> l) + sum_Z (h2 <$> l).
Proof.
  induction l as [|x l IH]; [done|]. rewrite !fmap_cons.
  unfold sum_Z in *. simpl. lia.
Qed.

Lemma sum_Z_indicator (key : value) z (ks : list value) :
  NoDup ks → key ∈ ks →
  sum_Z ((λ k, if bool_decide (key = k) then z else 0) <$> ks) = z.
Proof.
  induction 1 as [|k ks Hk Hnd IH]; [by intros ?%elem_of_nil|].
  intros Hin. rewrite fmap_cons. unfold sum_Z in *. simpl.
  destruct (decide (key = k)) as [->|Hne].
  - rewrite bool_decide_eq_true_2 by done.
    assert (foldr Z.add 0 ((λ k', if bool_decide (k = k') then z else 0) <$> ks) = 0) as ->; [|lia].
    clear IH Hin Hnd. induction ks as [|k' ks IH]; [done|].
    apply not_elem_of_cons in Hk as [Hne Hk]. rewrite fmap_cons. simpl.
    rewrite bool_decide_eq_false_2 by done. by rewrite IH.
  - rewrite bool_decide_eq_false_2 by done.
    apply elem_of_cons in Hin as [?|Hin]; [done|]. rewrite IH by done. lia.
Qed.

Lemma group_total_cons key keys z zs k :
  group_total (key :: keys) (z :: zs) k
  = (if bool_decide (key = k) then z else 0) + group_total keys zs k.
Proof.
  unfold group_total. rewrite fmap_cons. simpl.
  destruct (bool_decide (key = k)); unfold sum_Z; simpl; lia.
Qed.

(** Every position is counted in the total of exactly one key. *)
Lemma group_totals_sum (ks keys : list value) (zs : list Z) :
  NoDup ks → (∀ k, k ∈ keys → k ∈ ks) → length keys = length zs →
  sum_Z (group_total keys zs <$> ks) = sum_Z zs.
Proof.
  intros Hnd. revert zs. induction keys as [|key keys IH]; intros [|z zs] Hin Hlen;
    simpl in Hlen; try lia.
  - clear. induction ks as [|k ks IH]; [done|]. rewrite fmap_cons.
    unfold sum_Z in *. simpl. by rewrite IH.
  - rewrite (list_fmap_ext _ (λ k, (if bool_decide (key = k) then z else 0)
                                   + group_total keys zs k) ks)
      by (intros; apply group_total_cons).
    rewrite sum_Z_fmap_add, sum_Z_indicator, IH; [| | lia | done |].
    + unfold sum_Z. simpl. lia.
    + intros k Hk. apply Hin. by right.
    + apply Hin. by left.
Qed.

Lemma wrap64_sum {A} (h : A → Z) (l : list A) :
  wrap64 (sum_Z ((λ x, wrap64 (h x)) <$> l)) = wrap64 (sum_Z (h <$> l)).
Proof.
  induction l as [|x l IH]; [done|]. rewrite !fmap_cons.
  unfold sum_Z in *. simpl.
  rewrite wrap64_add_l, <- wrap64_add_r, IH, wrap64_add_r. done.
Qed.

Lemma sum_Z_abs_nonneg (zs : list Z) : 0 <= sum_Z (Z.abs <$> zs).
Proof.
  induction zs as [|z zs IH]; [done|]. rewrite fmap_cons.
  unfold sum_Z in *. simpl. lia.
Qed.

Lemma abs_sum_Z (zs : list Z) : Z.abs (sum_Z zs) <= sum_Z (Z.abs <$> zs).
Proof.
  induction zs as [|z zs IH]; [done|]. rewrite fmap_cons.
  unfold sum_Z in *. simpl. lia.
Qed.

Lemma abs_sum_select mask (zs : list Z) :
  Z.abs (sum_Z (select mask zs)) <= sum_Z (Z.abs <$> zs).
Proof.
  revert mask. induction zs as [|z zs IH]; intros mask.
  - by rewrite select_nil.
  - pose proof (sum_Z_abs_nonneg zs). rewrite fmap_cons.
    destruct mask as [|[] mask]; [|specialize (IH mask)..];
      unfold sum_Z in *; simpl; lia.
Qed.

Lemma in_int64_abs z : Z.abs z < 2 ^ 63 → in_int64 z.
Proof. unfold in_int64. lia. Qed.

(** X3: on a table whose Penjualan column is an int64 column, when the pie
    chart's totals are computed and no filtered row lacks its category,
    the totals are integers and their 64-bit sum is the total of sales
    shown in the first KPI; they add up to it exactly when the magnitudes
    of the filtered sales add up to less than 2^63. *)
Theorem pie_totals_add_up_to_total_sales d i g p (a : list Z) kategori :
  dashboard d i = Ok g → pie_df g = Some p →
  int64_column d "Penjualan" a →
  getitem (filtered_df g) "Kategori" = Ok kategori → VNaN ∉ kategori →
  ∃ sales vs,
    getitem (filtered_df g) "Penjualan" = Ok (VInt <$> sales)
    ∧ p.*2 = VInt <$> vs
    ∧ total_sales g = VInt (wrap64 (sum_Z vs))
    ∧ (sum_Z (Z.abs <$> sales) < 2 ^ 63 → total_sales g = VInt (sum_Z vs)).
Proof.
  intros Hg Hp [Ha _] Hkat Hnan.
  pose proof (dashboard_Ok _ _ _ Hg)
    as (_ & _ & _ & Hf & _ & (pen & Hpen & Hts & _) & _ & Hpie).
  destruct (getitem_filtered_ints _ _ _ _ _ _ Hf Ha) as (zs & Hzs & Haz).
  rewrite Hzs in Hpen. injection Hpen as <-.
  rewrite (column_dtype_Ok _ _ _ Ha) in Hts.
  rewrite Series_sum_ints in Hts by done. injection Hts as Hts.
  unfold pie in Hpie. rewrite Hp in Hpie.
  destruct (has_column d "Kategori") eqn:Hk; [|done].
  rewrite (column_dtype_Ok _ _ _ Ha) in Hpie.
  rewrite (groupby_sum_ints _ _ _ _ _ _ Haz Hkat Hzs) in Hpie.
  simpl in Hpie. injection Hpie as Hpie.
  set (ks := merge_sort value_le (unique (dropna kategori))) in *.
  assert (Hsum : sum_Z (group_total kategori zs <$> ks) = sum_Z zs).
  { apply group_totals_sum.
    - unfold ks. rewrite merge_sort_Permutation. apply NoDup_unique.
    - intros k Hin. unfold ks.
      rewrite merge_sort_Permutation, elem_of_unique, elem_of_dropna.
      split; [done|]. by intros ->.
    - apply getitem_length in Hzs. rewrite length_fmap in Hzs.
      apply getitem_length in Hkat. by rewrite Hkat, Hzs. }
  exists zs, ((λ k, wrap64 (group_total kategori zs k)) <$> ks).
  split; [done|]. split; [|split].
  - rewrite <- Hpie. rewrite <- !list_fmap_compose. done.
  - rewrite <- Hts. by rewrite wrap64_sum, Hsum.
  - intros Hbound. rewrite <- Hts. f_equal.
    rewrite (list_fmap_ext _ (group_total kategori zs) ks).
    + rewrite Hsum. apply wrap64_small, in_int64_abs.
      pose proof (abs_sum_Z zs). lia.
    + intros _ k _. apply wrap64_small, in_int64_abs.
      pose proof (abs_sum_select ((λ k', bool_decide (k' = k)) <$> kategori) zs).
      unfold group_total. lia.
Qed.

Lemma pie_totals_add_up_witness :
  ∃ g p, dashboard sample_table pick_two_days = Ok g
         ∧ pie_df g = Some p
         ∧ p.*2 = VInt <$> [90; 150]
         ∧ total_sales g = VInt 240
         ∧ ∃ sales vs,
             getitem (filtered_df g) "Penjualan" = Ok (VInt <$> sales)
             ∧ p.*2 = VInt <$> vs
             ∧ total_sales g = VInt (wrap64 (sum_Z vs)).
Proof.
  eassert (dashboard sample_table pick_two_days = Ok _) as Hg
    by (vm_compute; reflexivity).
  eexists _, _. split; [exact Hg|]. split; [reflexivity|].
  split; [reflexivity|]. split; [reflexivity|].
  edestruct (pie_totals_add_up_to_total_sales sample_table pick_two_days _ _
               [120; 150; 90; 170; 200; 220; 180] [VStr "Minuman"; VStr "Makanan"]
               Hg eq_refl)
    as (sales & vs & H1 & H2 & H3 & _).
  { split; [reflexivity | decide_it]. }
  { reflexivity. }
  { decide_it. }
  exists sales, vs. split; [exact H1|]. split; [exact H2 | exact H3].
Defined.

(** ** How the filter reacts to the selection *)

Lemma filter_sublist_impl {A} (P Q : A → Prop)
    `{!∀ x, Decision (P x), !∀ x, Decision (Q x)} (l : list A) :
  (∀ x, x ∈ l → P x → Q x) → sublist (filter P l) (filter Q l).
Proof.
  induction l as [|x l IH]; intros Himp; [done|].
  assert (IH' : sublist (filter P l) (filter Q l)).
  { apply IH. intros y Hy. apply Himp. by right. }
  rewrite !filter_cons. destruct (decide (P x)) as [HP|HP].
  - rewrite decide_True by (apply Himp; [left | done]). by constructor.
  - destruct (decide (Q x)); [by constructor | done].
Qed.

Lemma filter_ext_in {A} (P Q : A → Prop)
    `{!∀ x, Decision (P x), !∀ x, Decision (Q x)} (l : list A) :
  (∀ x, x ∈ l → P x ↔ Q x) → filter P l = filter Q l.
Proof.
  induction l as [|x l IH]; intros Hiff; [done|].
  rewrite !filter_cons, IH by (intros y Hy; apply Hiff; by right).
  apply decide_ext, Hiff. left.
Qed.

Lemma keeps_mono d sh sh' sk sk' r :
  sh ⊆ sh' → sk ⊆ sk' → keeps d sh sk r → keeps d sh' sk' r.
Proof.
  intros Hh Hk [H1 H2]. unfold keeps.
  destruct (field d "Hari" r); [|done].
  destruct (field d "Kategori" r); split; auto.
Qed.

(** X4: selecting more days or more categories never takes a row away: the
    rows kept under a selection are a subsequence of the rows kept under
    any wider selection. *)
Theorem wider_selection_keeps_more_rows d sh sh' sk sk' f f' :
  sh ⊆ sh' → sk ⊆ sk' →
  apply_filter d sh sk = Ok f → apply_filter d sh' sk' = Ok f' →
  sublist (rows f) (rows f').
Proof.
  intros Hh Hk (_ & _ & ->)%apply_filter_Ok (_ & _ & ->)%apply_filter_Ok.
  apply filter_sublist_impl. intros r _. by apply keeps_mono.
Qed.

Lemma wider_selection_witness :
  ∃ f f',
    apply_filter sample_table [VStr "Senin"] [VStr "Makanan"] = Ok f
    ∧ apply_filter sample_table [VStr "Rabu"; VStr "Senin"]
        [VStr "Minuman"; VStr "Makanan"] = Ok f'
    ∧ length (rows f) = 1%nat ∧ length (rows f') = 2%nat
    ∧ sublist (rows f) (rows f').
Proof.
  eexists _, _. split; [vm_compute; reflexivity|].
  split; [vm_compute; reflexivity|]. split; [reflexivity|]. split; [reflexivity|].
  eapply (wider_selection_keeps_more_rows sample_table
            [VStr "Senin"] [VStr "Rabu"; VStr "Senin"]
            [VStr "Makanan"] [VStr "Minuman"; VStr "Makanan"]);
    [| | vm_compute; reflexivity | vm_compute; reflexivity].
  - intros v ->%list_elem_of_singleton. by right; left.
  - intros v ->%list_elem_of_singleton. by right; left.
Defined.

(** X5: a selection acts only through the values of the table that it
    contains: two selections that agree on the days and on the categories
    occurring in the table give the same filtered frame, whatever their
    order, their repetitions or their other entries. *)
Theorem selection_acts_by_membership d sh sh' sk sk' :
  (∀ r v, r ∈ rows d → field d "Hari" r = Some v → v ∈ sh ↔ v ∈ sh') →
  (∀ r v, r ∈ rows d → field d "Kategori" r = Some v → v ∈ sk ↔ v ∈ sk') →
  apply_filter d sh sk = apply_filter d sh' sk'.
Proof.
  intros Hh Hk. destruct (decide ("Hari" ∈ columns d)) as [Hin|Hnin].
  - rewrite !apply_filter_eq by done. f_equal. f_equal.
    apply filter_ext_in. intros r Hr. unfold keeps.
    specialize (Hh r). specialize (Hk r).
    destruct (field d "Hari" r) as [v|]; [|tauto].
    destruct (field d "Kategori" r) as [w|].
    + rewrite (Hh v Hr eq_refl), (Hk w Hr eq_refl). done.
    + by rewrite (Hh v Hr eq_refl).
  - unfold apply_filter. by rewrite !(getitem_lacks _ _ Hnin).
Qed.

Lemma selection_membership_witness :
  apply_filter sample_table [VStr "Senin"; VStr "Rabu"] [VStr "Makanan"]
  = apply_filter sample_table
      [VStr "Rabu"; VStr "Libur"; VStr "Senin"; VStr "Rabu"]
      [VStr "Makanan"; VStr "Makanan"].
Proof.
  apply (selection_acts_by_membership sample_table).
  - intros r v Hr Hf. unfold sample_table in Hr. simpl in Hr.
    repeat (apply elem_of_cons in Hr as [->|Hr]);
      [..| by apply elem_of_nil in Hr];
      vm_compute in Hf; injection Hf as <-;
      rewrite !elem_of_cons, !elem_of_nil; split; intros H;
      repeat destruct H as [H|H]; try discriminate H; tauto.
  - intros r v Hr Hf. unfold sample_table in Hr. simpl in Hr.
    repeat (apply elem_of_cons in Hr as [->|Hr]);
      [..| by apply elem_of_nil in Hr];
      vm_compute in Hf; injection Hf as <-;
      rewrite !elem_of_cons, !elem_of_nil; split; intros H;
      repeat destruct H as [H|H]; try discriminate H; tauto.
Defined.

Lemma filter_idemp {A} (P : A → Prop) `{!∀ x, Decision (P x)} (l : list A) :
  filter P (filter P l) = filter P l.
Proof. apply filter_all. by intros x [? _]%list_elem_of_filter. Qed.

(** X6: filtering is idempotent: applied to its own result with the same
    selection, the filter returns that result unchanged. *)
Theorem filtering_twice_changes_nothing d sh sk f :
  apply_filter d sh sk = Ok f → apply_filter f sh sk = Ok f.
Proof.
  intros (Hh & Hc & Hr)%apply_filter_Ok.
  rewrite apply_filter_eq by by rewrite Hc.
  destruct f as [fc fr]. simpl in *. subst fc fr. f_equal. f_equal.
  etrans; [|apply (filter_idemp (keeps d sh sk))].
  apply list_filter_iff. intros r. unfold keeps, field. done.
Qed.

Lemma filtering_twice_witness :
  ∃ f, apply_filter sample_table [VStr "Sabtu"; VStr "Kamis"] [VStr "Minuman"] = Ok f
       ∧ length (rows f) = 2%nat
       ∧ apply_filter f [VStr "Sabtu"; VStr "Kamis"] [VStr "Minuman"] = Ok f.
Proof.
  eexists. split; [vm_compute; reflexivity|]. split; [reflexivity|].
  apply (filtering_twice_changes_nothing sample_table).
  vm_compute. reflexivity.
Defined.

(** ** The options of the day filter *)

Lemma unique_from_sublist seen s : sublist (unique_from seen s) s.
Proof.
  revert seen. induction s as [|v s IH]; intros seen; simpl; [done|].
  destruct (decide (v ∈ seen)); constructor; apply IH.
Qed.

(** Of two values listed by [unique], the one listed first appears in the
    series before any occurrence of the other. *)
Lemma unique_from_order seen s (ia ib : nat) a b :
  unique_from seen s !! ia = Some a → unique_from seen s !! ib = Some b →
  (ia < ib)%nat →
  ∃ ja, s !! ja = Some a ∧ ∀ jb, s !! jb = Some b → (ja < jb)%nat.
Proof.
  revert seen ia ib. induction s as [|v s IH]; intros seen ia ib; simpl; [done|].
  destruct (decide (v ∈ seen)) as [Hv|Hv].
  - intros Ha Hb Hlt. destruct (IH _ _ _ Ha Hb Hlt) as (ja & Hja & Hjb).
    exists (S ja). split; [done|]. intros [|jb] Hj.
    + injection Hj as ->. apply list_elem_of_lookup_2 in Hb.
      apply elem_of_unique_from in Hb as [_ Hb]. done.
    + apply Hjb in Hj. lia.
  - destruct ia as [|ia], ib as [|ib]; try lia; simpl.
    + intros [= ->] Hb _. exists O. split; [done|]. intros [|jb] Hj; [|lia].
      injection Hj as ->. apply list_elem_of_lookup_2 in Hb.
      apply elem_of_unique_from in Hb as [_ Hb]. destruct Hb. by left.
    + intros Ha Hb Hlt. destruct (IH _ _ _ Ha Hb) as (ja & Hja & Hjb); [lia|].
      exists (S ja). split; [done|]. intros [|jb] Hj.
      * injection Hj as ->. apply list_elem_of_lookup_2 in Hb.
        apply elem_of_unique_from in Hb as [_ Hb]. destruct Hb. by left.
      * apply Hjb in Hj. lia.
Qed.

(** X7: the day filter offers every day of the table exactly once, in the
    order in which the days first appear in the table: of two days
    offered, the one offered first appears in the day column before any
    occurrence of the other.  Until the user touches the filter, all days
    are selected. *)
Theorem day_options_are_the_days_of_the_table d i g :
  dashboard d i = Ok g →
  NoDup (hari_list g)
  ∧ (∀ v, v ∈ hari_list g ↔ ∃ r, r ∈ rows d ∧ field d "Hari" r = Some v)
  ∧ (∃ hari, getitem d "Hari" = Ok hari ∧ sublist (hari_list g) hari
       ∧ ∀ (ia ib : nat) a b,
           hari_list g !! ia = Some a → hari_list g !! ib = Some b →
           (ia < ib)%nat →
           ∃ ja, hari !! ja = Some a ∧ ∀ jb, hari !! jb = Some b → (ja < jb)%nat)
  ∧ (pick_hari i = None → selected_hari g = hari_list g).
Proof.
  intros (_ & (hari & Hh & -> & Hsh) & _)%dashboard_Ok.
  split; [apply NoDup_unique|]. split; [|split].
  - intros v. rewrite elem_of_unique.
    apply getitem_Ok in Hh as (j & Hj & ->). unfold field. rewrite Hj. simpl.
    rewrite list_elem_of_fmap. split.
    + intros (r & -> & Hr). eauto.
    + intros (r & Hr & [= <-]). eauto.
  - exists hari. split; [done|]. split; [apply unique_from_sublist|].
    intros ia ib a b. apply unique_from_order.
  - intros E. by rewrite Hsh, E.
Qed.

Lemma day_options_witness :
  ∃ g, dashboard table_of_repeated_days pick_monday = Ok g
       ∧ hari_list g = [VStr "Selasa"; VStr "Senin"]
       ∧ NoDup (hari_list g)
       ∧ (∀ v, v ∈ hari_list g
               ↔ ∃ r, r ∈ rows table_of_repeated_days
                      ∧ field table_of_repeated_days "Hari" r = Some v).
Proof.
  eassert (dashboard table_of_repeated_days pick_monday = Ok _) as Hg
    by (vm_compute; reflexivity).
  eexists. split; [exact Hg|]. split; [reflexivity|].
  edestruct (day_options_are_the_days_of_the_table table_of_repeated_days pick_monday)
    as (Hnd & Hin & _); [exact Hg|].
  split; [exact Hnd | exact Hin].
Defined.

(** ** Means without numbers *)

Lemma mean_of_NaN zs : mean_of zs = NaN ↔ zs = [].
Proof.
  destruct zs as [|z zs]; [done|]. unfold mean_of.
  by destruct (decide (sum_Z (Z.abs <$> z :: zs) <= 2 ^ 53)).
Qed.

Lemma dropna_nil s : dropna s = [] ↔ Forall (λ v, v = VNaN) s.
Proof.
  unfold dropna. induction s as [|v s IH]; [by split|].
  rewrite filter_cons. destruct (decide (v ≠ VNaN)) as [Hv|Hv].
  - split; [done|]. by intros [? _]%Forall_cons.
  - rewrite IH, Forall_cons. destruct (decide (v = VNaN)); tauto.
Qed.

Lemma mean_NaN dt s m :
  Series_mean dt s = Ok m → (m = NaN ↔ Forall (λ v, v = VNaN) s).
Proof.
  intros (_ & zs & Hzs & ->)%Series_mean_Ok.
  rewrite mean_of_NaN, <- dropna_nil, Hzs. split; [by intros ->|].
  by intros ?%fmap_nil_inv.
Qed.

(** X8: a mean is not-a-number exactly when no row that passed the filter
    holds a number in its column, as when no row passed it; when no row
    passed the filter, both totals are 0 and the pie chart, if there is
    one, has no slice. *)
Theorem mean_is_NaN_iff_no_number_is_kept d i g :
  dashboard d i = Ok g →
  (∃ sales visitors,
     getitem (filtered_df g) "Penjualan" = Ok sales
     ∧ getitem (filtered_df g) "Pengunjung" = Ok visitors
     ∧ (avg_sales g = NaN ↔ Forall (λ v, v = VNaN) sales)
     ∧ (avg_visitors g = NaN ↔ Forall (λ v, v = VNaN) visitors))
  ∧ (rows (filtered_df g) = [] →
     avg_sales g = NaN ∧ avg_visitors g = NaN
     ∧ total_sales g = VInt 0 ∧ total_visitors g = VInt 0
     ∧ (pie_df g = None ∨ pie_df g = Some [])).
Proof.
  intros Hg.
  apply dashboard_Ok in Hg
    as (_ & _ & _ & _ & _ & (pen & Hpen & Hts & Hpm) & (vis & Hvis & Hvs & Hvm) & Hpie).
  pose proof (mean_NaN _ _ _ Hpm) as Hs. pose proof (mean_NaN _ _ _ Hvm) as Hv.
  split; [by exists pen, vis|].
  intros Hr.
  assert (pen = []) as ->.
  { apply getitem_length in Hpen. rewrite Hr in Hpen. by destruct pen. }
  assert (vis = []) as ->.
  { apply getitem_length in Hvis. rewrite Hr in Hvis. by destruct vis. }
  apply Series_mean_Ok in Hpm as (Htp & _). apply Series_mean_Ok in Hvm as (Htv & _).
  rewrite Series_sum_nil in Hts, Hvs by done.
  injection Hts as <-. injection Hvs as <-.
  split; [by apply Hs|]. split; [by apply Hv|]. split; [done|]. split; [done|].
  unfold pie in Hpie. destruct (has_column d "Kategori").
  - right. unfold groupby_sum, getitem in Hpie. rewrite Hr in Hpie.
    destruct (index_of "Kategori" _); [|done].
    destruct (index_of "Penjualan" _); [|done].
    simpl in Hpie. by injection Hpie as <-.
  - left. by injection Hpie as <-.
Qed.

Lemma mean_is_NaN_witness :
  ∃ g, dashboard sample_table pick_two_days = Ok g
       ∧ rows (filtered_df g) ≠ []
       ∧ avg_sales g ≠ NaN ∧ avg_visitors g ≠ NaN.
Proof.
  eassert (dashboard sample_table pick_two_days = Ok _) as Hg
    by (vm_compute; reflexivity).
  eexists. split; [exact Hg|]. split; [done|].
  edestruct (mean_is_NaN_iff_no_number_is_kept sample_table pick_two_days)
    as ((sales & visitors & Hs & Hv & Has & Hav) & _); [exact Hg|].
  injection Hs as <-. injection Hv as <-.
  split.
  - intros E%Has. by apply Forall_cons in E as [? _].
  - intros E%Hav. by apply Forall_cons in E as [? _].
Defined.

(** ** What the session cache holds *)

Lemma load_data_cache i s :
  cache_ok s →
  sample_cache (load_data i s).1
  = if no_upload i then Some sample_table else sample_cache s.
Proof.
  intros Hs. unfold load_data, no_upload.
  destruct (uploaded_file i) as [text|]; [done|].
  rewrite bool_decide_eq_true_2 by done.
  unfold cached_load_sample_data.
  destruct (sample_cache s) as [d|] eqn:E; [|done].
  simpl. rewrite E. f_equal. apply Hs in E.
  rewrite load_sample_data_eq in E. congruence.
Qed.

Lemma session_runs_cache its s :
  cache_ok s →
  sample_cache (session_runs s its).1
  = if existsb no_upload its then Some sample_table else sample_cache s.
Proof.
  revert s. induction its as [|i its IH]; intros s Hs; [done|].
  simpl. pose proof (script_cache_ok i s Hs) as Hs'.
  pose proof (load_data_cache i s Hs) as Hc. rewrite <- script_fst in Hc.
  destruct (script i s) as [s1 r]. simpl in *. specialize (IH s1 Hs').
  destruct (session_runs s1 its) as [s2 rs]. simpl in *.
  rewrite IH, Hc. by destruct (no_upload i), (existsb no_upload its).
Qed.

(** X9: the cache of [load_sample_data] is filled by the first run without
    an upload and holds the sample table from then on; runs on uploaded
    files neither fill nor change it. *)
Theorem cache_holds_the_sample_table_only its :
  sample_cache (session_runs new_session its).1
  = if existsb no_upload its then Some sample_table else None.
Proof. apply (session_runs_cache its new_session), new_session_ok. Qed.

(** ** Totals under a wider selection *)

Lemma sum_Z_sublist (l1 l2 : list Z) :
  sublist l1 l2 → Forall (λ z : Z, (0 <= z)%Z) l2 → (sum_Z l1 <= sum_Z l2)%Z.
Proof.
  induction 1 as [|x l1 l2 _ IH|x l1 l2 _ IH]; intros Hpos; [done| |].
  - apply Forall_cons in Hpos as [_ Hpos]. unfold sum_Z in *. simpl.
    specialize (IH Hpos). lia.
  - apply Forall_cons in Hpos as [Hx Hpos]. unfold sum_Z in *. simpl.
    specialize (IH Hpos). lia.
Qed.

Lemma Forall_sublist {A} (P : A → Prop) (l1 l2 : list A) :
  sublist l1 l2 → Forall P l2 → Forall P l1.
Proof.
  rewrite !Forall_forall. intros Hsub H x Hx. apply H.
  by eapply elem_of_sublist.
Qed.

Lemma int_of_VInt (zs : list Z) : int_of <$> (VInt <$> zs) = zs.
Proof. induction zs as [|z zs IH]; [done|]. rewrite !fmap_cons. by f_equal. Qed.

(** The total of an integer column [c] in a run that ends, read row by
    row. *)
Lemma total_by_rows d i g c (a : list Z) total :
  dashboard d i = Ok g → getitem d c = Ok (VInt <$> a) →
  (∃ s, getitem (filtered_df g) c = Ok s
        ∧ Series_sum (column_dtype d c) s = Ok total) →
  ∃ j, a = int_of ∘ cell j <$> rows d
       ∧ total = VInt (wrap64 (sum_Z (int_of ∘ cell j <$> rows (filtered_df g)))).
Proof.
  intros Hg Ha (s & Hs & Hsum).
  pose proof (dashboard_Ok _ _ _ Hg) as (_ & _ & _ & Hf & _).
  destruct (getitem_filtered_ints _ _ _ _ _ _ Hf Ha) as (zs & Hzs & Haz).
  rewrite Hzs in Hs. injection Hs as <-.
  rewrite (column_dtype_Ok _ _ _ Ha), Series_sum_ints in Hsum by done.
  injection Hsum as <-.
  destruct (getitem_filtered _ _ _ _ _ _ Hf Ha) as (j & Hj & Ea & Ef).
  apply apply_filter_Ok in Hf as (_ & _ & Hr). rewrite <- Hr in Ef.
  rewrite Hzs in Ef. injection Ef as Ef.
  exists j. split.
  - by rewrite (list_fmap_compose (cell j) int_of), <- Ea, int_of_VInt.
  - by rewrite (list_fmap_compose (cell j) int_of), <- Ef, int_of_VInt.
Qed.

(** X10: on a table whose Penjualan and Pengunjung columns hold integers,
    none of them negative, and add up to less than 2^63 each, widening the
    selection never lowers the total of sales, and likewise for the
    visitors. *)
Theorem wider_selection_never_lowers_totals d i i' g g' (a b : list Z) :
  dashboard d i = Ok g → dashboard d i' = Ok g' →
  selected_hari g ⊆ selected_hari g' →
  selected_kategori g ⊆ selected_kategori g' →
  getitem d "Penjualan" = Ok (VInt <$> a) →
  getitem d "Pengunjung" = Ok (VInt <$> b) →
  Forall (λ z : Z, (0 <= z)%Z) a → Forall (λ z : Z, (0 <= z)%Z) b →
  (sum_Z a < 2 ^ 63)%Z → (sum_Z b < 2 ^ 63)%Z →
  ∃ t t' u u',
    total_sales g = VInt t ∧ total_sales g' = VInt t' ∧ (t <= t')%Z
    ∧ total_visitors g = VInt u ∧ total_visitors g' = VInt u' ∧ (u <= u')%Z.
Proof.
  intros Hg Hg' Hh Hk Ha Hb Hpa Hpb Hba Hbb.
  assert (Hsub : sublist (rows (filtered_df g)) (rows (filtered_df g'))).
  { pose proof (dashboard_Ok _ _ _ Hg) as (_ & _ & _ & Hf & _).
    pose proof (dashboard_Ok _ _ _ Hg') as (_ & _ & _ & Hf' & _).
    apply apply_filter_Ok in Hf as (_ & _ & ->).
    apply apply_filter_Ok in Hf' as (_ & _ & ->).
    apply filter_sublist_impl. intros r _. by apply keeps_mono. }
  assert (Hrows : sublist (rows (filtered_df g')) (rows d)).
  { pose proof (dashboard_Ok _ _ _ Hg') as (_ & _ & _ & Hf' & _).
    apply apply_filter_Ok in Hf' as (_ & _ & ->). apply sublist_filter. }
  assert (Hcol : ∀ c (zs : list Z) total total',
    getitem d c = Ok (VInt <$> zs) →
    Forall (λ z : Z, (0 <= z)%Z) zs → (sum_Z zs < 2 ^ 63)%Z →
    (∃ s, getitem (filtered_df g) c = Ok s
          ∧ Series_sum (column_dtype d c) s = Ok total) →
    (∃ s, getitem (filtered_df g') c = Ok s
          ∧ Series_sum (column_dtype d c) s = Ok total') →
    ∃ t t', total = VInt t ∧ total' = VInt t' ∧ (t <= t')%Z).
  { intros c zs total total' Hc Hpos Hbound Ht Ht'.
    destruct (total_by_rows _ _ _ _ _ _ Hg Hc Ht) as (j & Ezs & ->).
    destruct (total_by_rows _ _ _ _ _ _ Hg' Hc Ht') as (j' & Ezs' & ->).
    assert (Hj : int_of ∘ cell j' <$> rows (filtered_df g')
                 = int_of ∘ cell j <$> rows (filtered_df g')).
    { apply list_fmap_ext. intros k r Hr.
      apply list_elem_of_lookup_2 in Hr.
      apply (elem_of_sublist _ _ _ Hr) in Hrows.
      apply list_elem_of_lookup_1 in Hrows as [n Hn].
      apply (f_equal (λ l, l !! n)) in Ezs'. rewrite Ezs in Ezs'.
      rewrite !list_lookup_fmap, Hn in Ezs'. simpl in Ezs'. by injection Ezs'. }
    rewrite Hj.
    set (l := int_of ∘ cell j <$> rows (filtered_df g)).
    set (l' := int_of ∘ cell j <$> rows (filtered_df g')).
    assert (H1 : sublist l l') by (by apply fmap_sublist).
    assert (H2 : sublist l' zs) by (rewrite Ezs; by apply fmap_sublist).
    pose proof (Forall_sublist _ _ _ H2 Hpos) as Hpos'.
    pose proof (sum_Z_sublist _ _ H1 Hpos') as Hle.
    pose proof (sum_Z_sublist _ _ H2 Hpos) as Hle'.
    pose proof (sum_Z_sublist _ _ (sublist_nil_l l)
                  (Forall_sublist _ _ _ H1 Hpos')) as H0.
    change (sum_Z []) with 0 in H0.
    rewrite !wrap64_small by (unfold in_int64; lia).
    eauto. }
  pose proof (dashboard_Ok _ _ _ Hg)
    as (_ & _ & _ & _ & _ & (pen & Hpen & Hts & _) & (vis & Hvis & Hvs & _) & _).
  pose proof (dashboard_Ok _ _ _ Hg')
    as (_ & _ & _ & _ & _ & (pen' & Hpen' & Hts' & _) & (vis' & Hvis' & Hvs' & _) & _).
  destruct (Hcol "Penjualan" a (total_sales g) (total_sales g') Ha Hpa Hba)
    as (t & t' & Ht & Ht' & Hle); [eauto | eauto |].
  destruct (Hcol "Pengunjung" b (total_visitors g) (total_visitors g') Hb Hpb Hbb)
    as (u & u' & Hu & Hu' & Hle'); [eauto | eauto |].
  exists t, t', u, u'. done.
Qed.

Lemma wider_selection_totals_witness :
  ∃ g g', dashboard sample_table pick_two_days = Ok g
          ∧ dashboard sample_table first_view = Ok g'
          ∧ total_sales g = VInt 240 ∧ total_sales g' = VInt 1130
          ∧ ∃ t t' u u',
              total_sales g = VInt t ∧ total_sales g' = VInt t' ∧ (t <= t')%Z
              ∧ total_visitors g = VInt u ∧ total_visitors g' = VInt u'
              ∧ (u <= u')%Z.
Proof.
  eassert (dashboard sample_table pick_two_days = Ok _) as Hg
    by (vm_compute; reflexivity).
  eassert (dashboard sample_table first_view = Ok _) as Hg'
    by (vm_compute; reflexivity).
  eexists _, _. split; [exact Hg|].
  split; [exact Hg'|]. split; [reflexivity|]. split; [reflexivity|].
  eapply (wider_selection_never_lowers_totals sample_table pick_two_days first_view
            _ _ [120; 150; 90; 170; 200; 220; 180] [50; 60; 30; 80; 90; 120; 100]
            Hg Hg').
  - intros v Hv. simpl in *.
    repeat (apply elem_of_cons in Hv as [->|Hv]);
      [..| by apply elem_of_nil in Hv]; apply (bool_decide_unpack _); vm_compute; exact I.
  - intros v Hv. exact Hv.
  - reflexivity.
  - reflexivity.
  - repeat constructor; discriminate.
  - repeat constructor; discriminate.
  - reflexivity.
  - reflexivity.
Defined.

(** ** The series drawn by the charts *)

(** X11: after a run that ends, the line chart and the bar chart can read
    their columns, and each of the six series has one entry per filtered
    row, in the order of the rows: the entry at a position is the day, the
    sales or the visitors of the filtered row at that position, so every x
    series lines up with its y series. *)
Theorem chart_series_follow_the_filtered_rows d i g :
  dashboard d i = Ok g →
  ∃ c, chart_inputs (filtered_df g) = Ok c
       ∧ Forall (λ s : list value, length s = length (rows (filtered_df g)))
           [trend_x_sales c; trend_sales c; trend_x_visitors c;
            trend_visitors c; bar_x c; bar_height c]
       ∧ ∀ k r, rows (filtered_df g) !! k = Some r →
           trend_x_sales c !! k = field (filtered_df g) "Hari" r
           ∧ trend_sales c !! k = field (filtered_df g) "Penjualan" r
           ∧ trend_x_visitors c !! k = field (filtered_df g) "Hari" r
           ∧ trend_visitors c !! k = field (filtered_df g) "Pengunjung" r
           ∧ bar_x c !! k = field (filtered_df g) "Hari" r
           ∧ bar_height c !! k = field (filtered_df g) "Penjualan" r.
Proof.
  intros Hg.
  pose proof (dashboard_Ok _ _ _ Hg)
    as (_ & _ & _ & (Hh & Hc & _)%apply_filter_Ok & _
        & (pen & Hpen & _) & (vis & Hvis & _) & _).
  rewrite <- Hc in Hh.
  destruct (getitem_has _ _ Hh) as (jh & Ejh & Hhari).
  apply getitem_Ok in Hpen as (jp & Ejp & ->).
  apply getitem_Ok in Hvis as (jv & Ejv & ->).
  assert (Hpen : getitem (filtered_df g) "Penjualan"
                 = Ok (cell jp <$> rows (filtered_df g)))
    by (unfold getitem; by rewrite Ejp).
  assert (Hvis : getitem (filtered_df g) "Pengunjung"
                 = Ok (cell jv <$> rows (filtered_df g)))
    by (unfold getitem; by rewrite Ejv).
  unfold chart_inputs. rewrite Hhari, Hpen, Hvis. simpl.
  eexists. split; [reflexivity|]. simpl. split.
  - repeat constructor; apply length_fmap.
  - intros k r Hk. unfold field. rewrite Ejh, Ejp, Ejv. simpl.
    rewrite !list_lookup_fmap, Hk. done.
Qed.

Lemma chart_series_witness :
  ∃ g c, dashboard sample_table pick_two_days = Ok g
         ∧ chart_inputs (filtered_df g) = Ok c
         ∧ trend_x_sales c = [VStr "Selasa"; VStr "Rabu"]
         ∧ trend_sales c = [VInt 150; VInt 90]
         ∧ trend_visitors c = [VInt 60; VInt 30]
         ∧ ∃ c', chart_inputs (filtered_df g) = Ok c'
                 ∧ Forall (λ s : list value, length s = length (rows (filtered_df g)))
                     [trend_x_sales c'; trend_sales c'; trend_x_visitors c';
                      trend_visitors c'; bar_x c'; bar_height c'].
Proof.
  eexists _, _. split; [vm_compute; reflexivity|].
  split; [vm_compute; reflexivity|].
  split; [reflexivity|]. split; [reflexivity|]. split; [reflexivity|].
  edestruct (chart_series_follow_the_filtered_rows sample_table pick_two_days)
    as (c' & Hc' & Hlen & _); [vm_compute; reflexivity|].
  exists c'. split; [exact Hc' | exact Hlen].
Defined.

(** ** Bounds on the means *)





